(** * Studio: the multi-language code execution engine

    A shallow embedding of [backend/routes/execution_enhanced.js] (the
    [/execute] route, the VM2 sandbox path, the external-process path with
    [compileCode] and [runCode], the routes [/validate] and [/languages]) and
    of [frontend/src/platform/ai/AIService.js] (the admission queue, the
    runners and the history of [JavaScriptExecutionService], [hashCode] of
    [AIService]), followed by the properties of the specification that can be
    settled on them and by further properties of the code.

    Conventions of the embedding:
    - a JavaScript string is a [string] of code units below 256;
    - a thrown [Error] is represented by its [message]; a script can also
      throw a value that is not an [Error], which is represented by the value;
    - asynchronous code is sequential here ([await] is a bind); a promise that
      never settles is the outcome [Pending];
    - an error that nothing catches (an [error] event without listener, an
      exception in a timer callback) ends the process: the outcome [Crashed];
    - the body of a request carries strings in [code], [language], [input],
      [filename] and [projectId]; bodies with other kinds of values there are
      outside the embedding;
    - [FileSystem] records what the handler and its timers do to the temp
      area; what a child process does to the disk is not part of it;
      [path_join] concatenates, which is what [path.join] does with a name
      that holds no separator and is not a dot segment;
    - everything the host environment decides (clock, UUIDs, file-system
      faults, what a child process prints and how it ends, what a script does
      inside the VM) is read from a [World]. *)

From Stdlib Require Import String Ascii List ZArith Lia Bool DecimalString.
Import ListNotations.
Open Scope string_scope.
Open Scope Z_scope.

(** ** JavaScript strings and values *)

Module Js.

(** The two-character string written ['\\n'] in the source: a backslash
    followed by the letter n. *)
Definition backslash_n : string :=
  String (ascii_of_nat 92) (String (ascii_of_nat 110) EmptyString).

(** The line feed character, ['\n']. *)
Definition LF : string := String (ascii_of_nat 10) EmptyString.

(** White space and line terminators stripped by [String.prototype.trim]
    (among code units below 256): TAB, LF, VT, FF, CR, SP, NBSP. *)
Definition is_space (c : ascii) : bool :=
  let n := nat_of_ascii c in
  (Nat.eqb n 9 || Nat.eqb n 10 || Nat.eqb n 11 || Nat.eqb n 12 ||
   Nat.eqb n 13 || Nat.eqb n 32 || Nat.eqb n 160)%bool.

Fixpoint trimStart (s : string) : string :=
  match s with
  | EmptyString => EmptyString
  | String c s' => if is_space c then trimStart s' else s
  end.

Fixpoint trimEnd (s : string) : string :=
  match s with
  | EmptyString => EmptyString
  | String c s' =>
      match trimEnd s' with
      | EmptyString => if is_space c then EmptyString else String c EmptyString
      | t => String c t
      end
  end.

(** [s.trim()] *)
Definition trim (s : string) : string := trimEnd (trimStart s).

(** [xs.join(sep)] on an array of strings *)
Fixpoint join (sep : string) (xs : list string) : string :=
  match xs with
  | [] => ""
  | [x] => x
  | x :: rest => x ++ sep ++ join sep rest
  end.

(** [a.startsWith(p)] *)
Definition startsWith (p a : string) : bool := String.prefix p a.

(** [s.endsWith(t)] for a one-character [t] *)
Fixpoint last_char (s : string) : option ascii :=
  match s with
  | EmptyString => None
  | String c EmptyString => Some c
  | String _ s' => last_char s'
  end.

(** The values a script can hand to the sandbox's console, complete with or
    throw.  Numbers are restricted to the integers that [String] prints in
    full (below 10^21 in absolute value); an object carries its two
    renderings, [JSON.stringify(v, null, 2)] and [String(v)]. *)
Inductive Val : Type :=
| VUndefined
| VNull
| VBool (b : bool)
| VInt (n : Z)
| VStr (s : string)
| VObject (json : string) (str : string).

(** [typeof v === 'object'] *)
Definition is_object (v : Val) : bool :=
  match v with
  | VNull | VObject _ _ => true
  | _ => false
  end.

(** [String(v)] *)
Definition String_ (v : Val) : string :=
  match v with
  | VUndefined => "undefined"
  | VNull => "null"
  | VBool true => "true"
  | VBool false => "false"
  | VInt n => NilZero.string_of_int (Z.to_int n)
  | VStr s => s
  | VObject _ str => str
  end.

(** [JSON.stringify(v, null, 2)], used on values whose [typeof] is object *)
Definition JSON_stringify (v : Val) : string :=
  match v with
  | VNull => "null"
  | VObject json _ => json
  | v => String_ v
  end.

(** [v !== undefined] *)
Definition is_defined (v : Val) : bool :=
  match v with
  | VUndefined => false
  | _ => true
  end.

(** [v.message] for a thrown value [v] that is not an [Error]: reading a
    property of [null] or [undefined] throws a TypeError ([Some] of its
    message, in the wording of current V8); a primitive or an object without
    that property gives [undefined] ([None]). *)
Definition message_TypeError (v : Val) : option string :=
  match v with
  | VNull => Some "Cannot read properties of null (reading 'message')"
  | VUndefined => Some "Cannot read properties of undefined (reading 'message')"
  | _ => None
  end.

(** [s] used as a condition, or on the left of [||] *)
Definition truthy (s : option string) : bool :=
  match s with
  | None | Some EmptyString => false
  | Some _ => true
  end.

End Js.

(** ** The language table *)

(** One entry of [LANGUAGE_CONFIGS]; a property the entry does not define is
    [None] ([undefined] in the source). *)
Record Config : Type := mkConfig {
  extension : string;
  runner : string;
  args : option (list string);
  sandbox : option bool;
  compile : option bool;
  compiler : option string;
  compilerArgs : option (list string);
  memoryLimit : option Z
}.

Definition cfg_javascript : Config :=
  mkConfig ".js" "node" None (Some true) None None None (Some (128 * 1024 * 1024)).
Definition cfg_python : Config :=
  mkConfig ".py" "python" (Some ["-u"]) (Some false) None None None None.
Definition cfg_typescript : Config :=
  mkConfig ".ts" "ts-node" None (Some false) None None None None.
Definition cfg_java : Config :=
  mkConfig ".java" "java" None None (Some true) (Some "javac") None None.
Definition cfg_cpp : Config :=
  mkConfig ".cpp" "./program" None None (Some true) (Some "g++") (Some ["-o"; "program"]) None.
Definition cfg_c : Config :=
  mkConfig ".c" "./program" None None (Some true) (Some "gcc") (Some ["-o"; "program"]) None.
Definition cfg_go : Config :=
  mkConfig ".go" "go" (Some ["run"]) None None None None None.
Definition cfg_rust : Config :=
  mkConfig ".rs" "./program" None None (Some true) (Some "rustc") (Some ["-o"; "program"]) None.
Definition cfg_php : Config :=
  mkConfig ".php" "php" None None None None None None.
Definition cfg_ruby : Config :=
  mkConfig ".rb" "ruby" None None None None None None.
Definition cfg_shell : Config :=
  mkConfig ".sh" "bash" None None None None None None.

(** [LANGUAGE_CONFIGS], in the order of its keys *)
Definition LANGUAGE_CONFIGS : list (string * Config) :=
  [ ("javascript", cfg_javascript);
    ("python", cfg_python);
    ("typescript", cfg_typescript);
    ("java", cfg_java);
    ("cpp", cfg_cpp);
    ("c", cfg_c);
    ("go", cfg_go);
    ("rust", cfg_rust);
    ("php", cfg_php);
    ("ruby", cfg_ruby);
    ("shell", cfg_shell) ].

(** [Object.keys(LANGUAGE_CONFIGS)] *)
Definition language_keys : list string := map fst LANGUAGE_CONFIGS.

(** [LANGUAGE_CONFIGS[language]] *)
Fixpoint lookup (table : list (string * Config)) (language : string) : option Config :=
  match table with
  | [] => None
  | (k, c) :: rest => if String.eqb k language then Some c else lookup rest language
  end.

(** A property used as a condition: [undefined] and [false] are falsy. *)
Definition flag (b : option bool) : bool :=
  match b with
  | Some true => true
  | _ => false
  end.

(** [EXECUTION_TIMEOUT] *)
Definition EXECUTION_TIMEOUT : Z := 30000.

(** ** Requests and responses *)

(** The JSON body of a request whose fields are strings.  [code] and
    [language] are the empty string when the caller left them out (the
    validators treat both alike).  The route reads [code], [language],
    [input], [projectId] and [filename]; [timeoutMs] and [maxOutputBytes]
    stand for fields of that name that a caller may send along. *)
Record Request : Type := mkRequest {
  code : string;
  language : string;
  input : option string;
  projectId : option string;
  filename : option string;
  timeoutMs : option Z;
  maxOutputBytes : option Z
}.

(** One element of [errors.array()] *)
Record ValidationError : Type := mkValidationError {
  ve_path : string;
  ve_msg : string;
  ve_value : string
}.

(** The JSON object given to [res.json]; an absent property is [None].
    ([memoryUsage], a host metric of the success answer of the sandbox, is
    left out.) *)
Record Body : Type := mkBody {
  success : bool;
  executionId : option string;
  output : option string;
  error : option string;
  executionTime : option Z;
  r_language : option string;
  stage : option string;
  errors : option (list ValidationError)
}.

Record Response : Type := mkResponse {
  status : Z;
  body : Body
}.

(** [validationResult(req).array()] for the three validators of the route:
    [isLength({min: 1})] on [code], [isIn(Object.keys(LANGUAGE_CONFIGS))] on
    [language]; the optional [isString] on [projectId] cannot fail on a
    [Request], whose [projectId] is a string when present. *)
Definition validationResult (req : Request) : list ValidationError :=
  (if (String.length (code req) =? 0)%nat
   then [mkValidationError "code" "Code is required" (code req)] else [])
  ++
  (if existsb (String.eqb (language req)) language_keys
   then [] else [mkValidationError "language" "Unsupported language" (language req)]).

(** [errors.isEmpty()] *)
Definition isEmpty (es : list ValidationError) : bool :=
  match es with
  | [] => true
  | _ => false
  end.

(** ** The host environment *)

(** Options object passed to [spawn]: the route sets [cwd] and [timeout] and
    nothing else (in particular no [shell]). *)
Record SpawnOptions : Type := mkSpawnOptions {
  cwd : string;
  timeout : Z
}.

(** What a child process emits, in order: [data] on its stdout and stderr
    streams, [close] with the exit code ([None] is [null]: ended by a
    signal), [error] when it could not be started or killed, and [error] on
    its stdin stream when what was written to it cannot be delivered (the
    child has gone or does not read; EPIPE). *)
Inductive ProcEvent : Type :=
| StdoutData (data : string)
| StderrData (data : string)
| Close (exitCode : option Z)
| ErrorEvent (message : string)
| StdinError (message : string).

(** A call of [spawn] throws at once or returns a child. *)
Inductive Child : Type :=
| SpawnThrows (message : string)
| Spawned (events : list ProcEvent).

(** The functions handed to [setTimeout]. *)
Inductive Timer : Type :=
| PromiseTimeout
| CleanupTempDir (tempDir : string).

Inductive ConsoleMethod : Type := CLog | CError | CWarn | CInfo.

(** What [require] of the sandbox answers to the script. *)
Inductive RequireReply : Type :=
| Loaded (module : string)
| RequireThrew (message : string).

(** The asynchronous part of a script, after [vm.run] returned a thenable:
    calls into the sandbox, then the fate of the thenable.  [ARejected]: it
    is rejected with an [Error]; [ARejectedValue]: it is rejected with a
    value that is not an [Error] and has no [message]; [AUnsettled]: it is
    not settled when the racing timer fires; [AUncaught]: before it settles
    an error arises in the host that nothing catches, as when a callback that
    the script gave to the [setTimeout] or [setInterval] of the sandbox
    object (the host's own) throws. *)
Inductive Async : Type :=
| AFulfilled (v : Js.Val)
| ARejected (message : string)
| AUnsettled
| AConsole (m : ConsoleMethod) (arguments : list Js.Val) (k : Async)
| ARequire (module : string) (k : RequireReply -> Async)
| ARejectedValue (v : Js.Val)
| AUncaught (message : string).

(** What a script does during [vm.run(code)]: it calls the functions of the
    sandbox object and then completes with a value, completes with a
    thenable, or throws: an [Error] or another object with a string as its
    [message] ([GThrow]: its own error, a sandbox error it did not catch, or
    the time-out of the VM), or a value without [message] ([GThrowValue]:
    [throw null], [throw 5]); a thrown object whose [message] is not a string
    is left out.  An error thrown by the sandbox's [require] reaches the
    script, which is free to catch it: the continuation receives it. *)
Inductive Guest : Type :=
| GValue (v : Js.Val)
| GThrow (message : string)
| GThenable (p : Async)
| GConsole (m : ConsoleMethod) (arguments : list Js.Val) (k : Guest)
| GRequire (module : string) (k : RequireReply -> Guest)
| GThrowValue (v : Js.Val).

(** Calls made by the route into its environment, in order. *)
Inductive Effect : Type :=
| ELog (level : string) (text : string)
| ENewVM (vmTimeout : Z)
| EMkdir (path : string)
| EWriteFile (path : string) (content : string)
| ERmdir (path : string)
| ESpawn (command : string) (arguments : list string) (options : SpawnOptions)
| EStdinWrite (data : string)
| EStdinEnd
| ESetTimeout (callback : Timer) (delay : Z).

(** Directories and files of the temp area. *)
Record FileSystem : Type := mkFileSystem {
  dirs : list string;
  files : list (string * string)
}.

(** Everything the environment decides. *)
Record World : Type := mkWorld {
  w_now : nat -> Z;                        (* the k-th [Date.now()] *)
  w_uuid : nat -> string;                  (* the k-th [crypto.randomUUID()] *)
  w_temp : string;                         (* [path.join(__dirname, '../../temp')] *)
  w_mkdir_fault : string -> option string; (* [fs.mkdir] rejects with this *)
  w_writeFile_fault : string -> option string;
  w_rmdir_fault : string -> option string;
  w_rmdir_enoent : bool;                   (* [fs.rmdir] rejects on a missing path *)
  w_vm_run : string -> string -> Guest;    (* [vm.run(code)] with global [input] *)
  w_spawn : string -> list string -> SpawnOptions -> Child
}.

Record Host : Type := mkHost {
  clock : nat;
  uuids : nat;
  fs : FileSystem;
  trace : list Effect
}.

(** Outcome of a computation: a value, a thrown error, a promise that never
    settles, or an error that no handler catches, with which the process
    ends. *)
Inductive Result (A : Type) : Type :=
| Ok (a : A)
| Threw (message : string)
| Pending
| Crashed (message : string).
Arguments Ok {A} a.
Arguments Threw {A} message.
Arguments Pending {A}.
Arguments Crashed {A} message.

Definition M (A : Type) : Type := World -> Host -> Result A * Host.

Definition ret {A} (a : A) : M A := fun _ h => (Ok a, h).

Definition bind {A B} (m : M A) (k : A -> M B) : M B :=
  fun w h =>
    match m w h with
    | (Ok a, h') => k a w h'
    | (Threw e, h') => (Threw e, h')
    | (Pending, h') => (Pending, h')
    | (Crashed e, h') => (Crashed e, h')
    end.

Definition throw {A} (message : string) : M A := fun _ h => (Threw message, h).

Definition never {A} : M A := fun _ h => (Pending, h).

(** An uncaught exception: no [try] block is on the stack when it is raised. *)
Definition crash {A} (message : string) : M A := fun _ h => (Crashed message, h).

(** [try { body } catch (error) { handler(error.message) }], for a body
    that throws [Error]s only *)
Definition try_catch {A} (body : M A) (handler : string -> M A) : M A :=
  fun w h =>
    match body w h with
    | (Threw e, h') => handler e w h'
    | r => r
    end.

Declare Scope host_scope.
Delimit Scope host_scope with host.
Notation "x <- c ;; k" := (bind c (fun x => k))
  (at level 100, c at next level, right associativity) : host_scope.
Notation "c ;;; k" := (bind c (fun _ => k))
  (at level 100, right associativity) : host_scope.
Open Scope host_scope.

Definition world : M World := fun w h => (Ok w, h).

Definition host : M Host := fun _ h => (Ok h, h).

Definition emit (e : Effect) : M unit :=
  fun _ h => (Ok tt, mkHost (clock h) (uuids h) (fs h) (trace h ++ [e])).

(** [Date.now()] *)
Definition now : M Z :=
  fun w h => (Ok (w_now w (clock h)), mkHost (S (clock h)) (uuids h) (fs h) (trace h)).

(** [crypto.randomUUID()] *)
Definition randomUUID : M string :=
  fun w h => (Ok (w_uuid w (uuids h)), mkHost (clock h) (S (uuids h)) (fs h) (trace h)).

(** [console.log], [console.warn], [console.error] of the host *)
Definition console (level text : string) : M unit := emit (ELog level text).

(** [path.join(a, b)], without the normalisation of dot segments *)
Definition path_join (a b : string) : string := a ++ "/" ++ b.

Definition set_fs (f : FileSystem -> FileSystem) : M unit :=
  fun _ h => (Ok tt, mkHost (clock h) (uuids h) (f (fs h)) (trace h)).

Definition has_dir (d : string) (f : FileSystem) : bool :=
  existsb (String.eqb d) (dirs f).

Definition under (d p : string) : bool := String.prefix (d ++ "/") p.

(** [fs.mkdir(path, { recursive: true })] *)
Definition mkdir (path : string) : M unit :=
  emit (EMkdir path) ;;;
  w <- world ;;
  match w_mkdir_fault w path with
  | Some e => throw e
  | None =>
      set_fs (fun f => if has_dir path f then f
                       else mkFileSystem (dirs f ++ [path]) (files f))
  end.

(** [fs.writeFile(path, content, 'utf8')] *)
Definition writeFile (path content : string) : M unit :=
  emit (EWriteFile path content) ;;;
  w <- world ;;
  match w_writeFile_fault w path with
  | Some e => throw e
  | None =>
      set_fs (fun f =>
        mkFileSystem (dirs f)
          (filter (fun e => negb (String.eqb (fst e) path)) (files f) ++ [(path, content)]))
  end.

(** [fs.rmdir(path, { recursive: true })]: removes the directory and what is
    under it; on a path that does not exist it either does nothing or
    rejects with ENOENT, depending on the version of the runtime. *)
Definition rmdir (path : string) : M unit :=
  emit (ERmdir path) ;;;
  w <- world ;;
  h <- host ;;
  match w_rmdir_fault w path with
  | Some e => throw e
  | None =>
      if has_dir path (fs h) then
        set_fs (fun f =>
          mkFileSystem
            (filter (fun d => negb (String.eqb d path) && negb (under path d))%bool (dirs f))
            (filter (fun e => negb (under path (fst e))) (files f)))
      else if w_rmdir_enoent w
      then throw ("ENOENT: no such file or directory, rmdir '" ++ path ++ "'")
      else ret tt
  end.

(** [spawn(command, args, options)] *)
Definition spawn (command : string) (arguments : list string) (options : SpawnOptions)
  : M (list ProcEvent) :=
  emit (ESpawn command arguments options) ;;;
  w <- world ;;
  match w_spawn w command arguments options with
  | SpawnThrows e => throw e
  | Spawned events => ret events
  end.

(** ** The VM2 sandbox path *)

(** The two capture buffers of [executeJavaScriptSandbox]. *)
Record Capture : Type := mkCapture {
  c_output : string;
  c_errorOutput : string
}.

(** [args.map(arg => typeof arg === 'object' ? JSON.stringify(arg, null, 2)
    : String(arg)).join(' ')] *)
Definition format (arguments : list Js.Val) : string :=
  Js.join " " (map (fun arg => if Js.is_object arg then Js.JSON_stringify arg
                               else Js.String_ arg) arguments).

(** [sandbox.console.log / error / warn / info] *)
Definition sandbox_console (m : ConsoleMethod) (arguments : list Js.Val) (c : Capture)
  : Capture :=
  match m with
  | CLog => mkCapture (c_output c ++ format arguments ++ Js.backslash_n) (c_errorOutput c)
  | CError => mkCapture (c_output c) (c_errorOutput c ++ format arguments ++ Js.backslash_n)
  | CWarn =>
      mkCapture (c_output c ++ "[WARN] " ++ format arguments ++ Js.backslash_n) (c_errorOutput c)
  | CInfo =>
      mkCapture (c_output c ++ "[INFO] " ++ format arguments ++ Js.backslash_n) (c_errorOutput c)
  end.

Definition allowedModules : list string := ["util"; "crypto"; "path"].

(** [sandbox.require] *)
Definition sandbox_require (module : string) : RequireReply :=
  if existsb (String.eqb module) allowedModules
  then Loaded module
  else RequireThrew ("Module '" ++ module ++ "' is not allowed in sandbox").

(** How [vm.run(code)] ends. *)
Inductive Completion : Type :=
| Returned (v : Js.Val)
| ReturnedThenable (p : Async)
| Thrown (message : string)
| ThrownValue (v : Js.Val).

(** [vm.run(code)] against the sandbox object. *)
Fixpoint vm_run (g : Guest) (c : Capture) : Completion * Capture :=
  match g with
  | GValue v => (Returned v, c)
  | GThrow e => (Thrown e, c)
  | GThenable p => (ReturnedThenable p, c)
  | GConsole m arguments k => vm_run k (sandbox_console m arguments c)
  | GRequire module k => vm_run (k (sandbox_require module)) c
  | GThrowValue v => (ThrownValue v, c)
  end.

(** How the [await] of the race ends: [inl] is the value it resolves with,
    [inr] the message of the [Error] it rejects with. *)
Inductive Settlement : Type :=
| Settled (outcome : Js.Val + string)
| RejectedValue (v : Js.Val)
| Uncaught (message : string).

(** [await Promise.race([result, <timer rejecting with 'Promise timeout'>])] *)
Fixpoint race (p : Async) (c : Capture) : Settlement * Capture :=
  match p with
  | AFulfilled v => (Settled (inl v), c)
  | ARejected e => (Settled (inr e), c)
  | AUnsettled => (Settled (inr "Promise timeout"), c)
  | AConsole m arguments k => race k (sandbox_console m arguments c)
  | ARequire module k => race (k (sandbox_require module)) c
  | ARejectedValue v => (RejectedValue v, c)
  | AUncaught e => (Uncaught e, c)
  end.

(** [res.json] of the [try] block of the sandbox path *)
Definition sandbox_success (executionId : string) (executionTime : Z) (c : Capture)
  : M Response :=
  ret (mkResponse 200
         (mkBody true (Some executionId) (Some (Js.trim (c_output c)))
            (Some (Js.trim (c_errorOutput c))) (Some executionTime)
            (Some "javascript") None None)).

Definition executeJavaScriptSandbox (code input executionId : string) : M Response :=
  startTime <- now ;;
  w <- world ;;
  emit (ENewVM EXECUTION_TIMEOUT) ;;;
  let '(completion, c) := vm_run (w_vm_run w code input) (mkCapture "" "") in
  match completion with
  | Returned result =>
      t <- now ;;
      sandbox_success executionId (t - startTime)
        (if Js.is_defined result
         then mkCapture (c_output c ++ Js.String_ result ++ Js.backslash_n) (c_errorOutput c)
         else c)
  | ReturnedThenable p =>
      t <- now ;;
      emit (ESetTimeout PromiseTimeout EXECUTION_TIMEOUT) ;;;
      let '(settlement, c1) := race p c in
      match settlement with
      | Settled settled =>
          sandbox_success executionId (t - startTime)
            match settled with
            | inl finalResult =>
                if Js.is_defined finalResult
                then mkCapture (c_output c1 ++ Js.String_ finalResult ++ Js.backslash_n)
                       (c_errorOutput c1)
                else c1
            | inr message =>
                mkCapture (c_output c1)
                  (c_errorOutput c1 ++ "Promise error: " ++ message ++ Js.backslash_n)
            end
      | RejectedValue v =>
          match Js.message_TypeError v with
          | None =>
              sandbox_success executionId (t - startTime)
                (mkCapture (c_output c1)
                   (c_errorOutput c1 ++ "Promise error: undefined" ++ Js.backslash_n))
          | Some typeError =>
              (* [promiseError.message] throws inside the inner catch block:
                 the outer catch block *)
              t' <- now ;;
              ret (mkResponse 200
                     (mkBody false (Some executionId) (Some (Js.trim (c_output c1)))
                        (Some typeError) (Some (t' - startTime)) (Some "javascript")
                        None None))
          end
      | Uncaught message => crash message
      end
  | Thrown message =>
      (* the catch block *)
      t <- now ;;
      ret (mkResponse 200
             (mkBody false (Some executionId) (Some (Js.trim (c_output c)))
                (Some message) (Some (t - startTime)) (Some "javascript") None None))
  | ThrownValue v =>
      (* the catch block, for a value that is not an [Error] *)
      t <- now ;;
      match Js.message_TypeError v with
      | None =>
          ret (mkResponse 200
                 (mkBody false (Some executionId) (Some (Js.trim (c_output c)))
                    None (Some (t - startTime)) (Some "javascript") None None))
      | Some typeError => throw typeError   (* [error.message] throws *)
      end
  end.

(** ** The external-process path *)

(** The object [compileCode] and [runCode] resolve with. *)
Record ProcResult : Type := mkProcResult {
  p_success : bool;
  p_output : string;
  p_error : string
}.

(** [code === 0] *)
Definition is_zero (exitCode : option Z) : bool :=
  match exitCode with
  | Some 0 => true
  | _ => false
  end.

(** The four listeners that [compileCode] and [runCode] both register
    ([data] on stdout, [data] on stderr, [close], [error]), run over the
    events of the child; [failure] is the prefix of the message of the
    [error] listener.  The promise resolves at the first [close] or [error]
    and stays pending ([None]) when neither comes. *)
Fixpoint listen (failure : string) (events : list ProcEvent) (output error : string)
  : option ProcResult :=
  match events with
  | [] => None
  | StdoutData data :: rest => listen failure rest (output ++ data) error
  | StderrData data :: rest => listen failure rest output (error ++ data)
  | Close exitCode :: _ =>
      Some (mkProcResult (is_zero exitCode) output
              (if negb (is_zero exitCode) then error else ""))
  | ErrorEvent message :: _ =>
      Some (mkProcResult false "" (failure ++ message))
  | StdinError _ :: rest => listen failure rest output error
  end.

(** The [error] event of the child's stdin, when it comes before the child
    closes or fails, that is before the promise of the step resolves. *)
Fixpoint stdin_error (events : list ProcEvent) : option string :=
  match events with
  | [] => None
  | StdinError message :: _ => Some message
  | Close _ :: _ => None
  | ErrorEvent _ :: _ => None
  | _ :: rest => stdin_error rest
  end.

Definition settle (r : option ProcResult) : M ProcResult :=
  match r with
  | Some r => ret r
  | None => never
  end.

Definition or_empty (l : option (list string)) : list string :=
  match l with
  | Some l => l
  | None => []
  end.

(** The argument vector of the compiler: [[...(config.compilerArgs || []),
    codeFileName]] *)
Definition compile_args (config : Config) (codeFileName : string) : list string :=
  or_empty (compilerArgs config) ++ [codeFileName].

(** The argument vector of the runner: [[...(config.args || [])]], with the
    file name pushed when the language is not compiled *)
Definition run_args (config : Config) (codeFileName : string) : list string :=
  or_empty (args config) ++ (if negb (flag (compile config)) then [codeFileName] else []).

Definition compileCode (tempDir codeFileName : string) (config : Config) : M ProcResult :=
  match compiler config with
  | None =>
      (* [spawn(undefined, ...)] throws in the executor: the promise rejects *)
      console "log" ("[Compilation] undefined " ++ Js.join " " (compile_args config codeFileName)) ;;;
      throw "ERR_INVALID_ARG_TYPE"
  | Some compiler =>
      let arguments := compile_args config codeFileName in
      console "log" ("[Compilation] " ++ compiler ++ " " ++ Js.join " " arguments) ;;;
      events <- spawn compiler arguments (mkSpawnOptions tempDir EXECUTION_TIMEOUT) ;;
      settle (listen "Compilation failed: " events "" "")
  end.

Definition runCode (tempDir codeFileName : string) (config : Config) (input : string)
  : M ProcResult :=
  let command := runner config in
  let arguments := run_args config codeFileName in
  console "log" ("[Execution] " ++ command ++ " " ++ Js.join " " arguments) ;;;
  events <- spawn command arguments (mkSpawnOptions tempDir EXECUTION_TIMEOUT) ;;
  (if Js.truthy (Some input)
   then emit (EStdinWrite input) ;;; emit EStdinEnd ;;;
        (* [runProcess.stdin] has no listener for [error] *)
        match stdin_error events with
        | Some message => crash message
        | None => ret tt
        end
   else ret tt) ;;;
  settle (listen "Execution failed: " events "" "").

(** The function given to [setTimeout], when the timer fires. *)
Definition run_timer (t : Timer) : M unit :=
  match t with
  | PromiseTimeout => ret tt
  | CleanupTempDir tempDir =>
      try_catch (rmdir tempDir)
        (fun message => console "warn" ("Failed to clean up temp directory: " ++ message))
  end.

(** [filename || `code${config.extension}`] *)
Definition code_file_name (config : Config) (filename : option string) : string :=
  match filename with
  | Some f => if Js.truthy (Some f) then f else "code" ++ extension config
  | None => "code" ++ extension config
  end.

Definition executeExternalProcess (code language : string) (config : Config)
  (input executionId : string) (projectId filename : option string) : M Response :=
  startTime <- now ;;
  w <- world ;;
  let tempDir := path_join (w_temp w) executionId in
  try_catch
    (mkdir tempDir ;;;
     let codeFileName := code_file_name config filename in
     let codeFilePath := path_join tempDir codeFileName in
     writeFile codeFilePath code ;;;
     compiled <-
       (if flag (compile config) then
          compileResult <- compileCode tempDir codeFileName config ;;
          if negb (p_success compileResult) then
            t <- now ;;
            ret (inl (mkResponse 200
                        (mkBody false (Some executionId) (Some "")
                           (Some (p_error compileResult)) (Some (t - startTime))
                           (Some language) (Some "compilation") None)))
          else ret (inr (p_output compileResult))
        else ret (inr "")) ;;
     match compiled with
     | inl response => ret response      (* the early [return res.json(...)] *)
     | inr output =>
         executeResult <- runCode tempDir codeFileName config input ;;
         t <- now ;;
         let executionTime := t - startTime in
         emit (ESetTimeout (CleanupTempDir tempDir) 5000) ;;;
         ret (mkResponse 200
                (mkBody (p_success executeResult) (Some executionId)
                   (Some (Js.trim (output ++ p_output executeResult)))
                   (Some (Js.trim (p_error executeResult))) (Some executionTime)
                   (Some language) (Some "execution") None))
     end)
    (fun message =>
       try_catch (rmdir tempDir) (fun _ => ret tt) ;;;
       t <- now ;;
       ret (mkResponse 200
              (mkBody false (Some executionId) (Some "") (Some message)
                 (Some (t - startTime)) (Some language) None None))).

(** ** The route [POST /execute] *)

(** [input = ''] of the destructuring *)
Definition input_or_default (input : option string) : string :=
  match input with
  | Some s => s
  | None => ""
  end.

Definition execute (req : Request) : M Response :=
  try_catch
    (let errors := validationResult req in
     if negb (isEmpty errors) then
       ret (mkResponse 400 (mkBody false None None None None None None (Some errors)))
     else
       let input := input_or_default (input req) in
       match lookup LANGUAGE_CONFIGS (language req) with
       | None =>
           (* excluded by the validator of [language]; reading a property of
              [undefined] would throw *)
           throw "Cannot read properties of undefined"
       | Some config =>
           executionId <- randomUUID ;;
           console "log" ("[Execution] Starting execution " ++ executionId
                          ++ " - Language: " ++ language req) ;;;
           if (String.eqb (language req) "javascript" && flag (sandbox config))%bool
           then executeJavaScriptSandbox (code req) input executionId
           else executeExternalProcess (code req) (language req) config input executionId
                  (projectId req) (filename req)
       end)
    (fun message =>
       console "error" ("Execution error: " ++ message) ;;;
       executionId <- randomUUID ;;
       ret (mkResponse 500
              (mkBody false (Some executionId) None (Some message) None None None None))).

(** The host before any request. *)
Definition fresh : Host := mkHost 0 0 (mkFileSystem [] []) [].

(** ** The admission queue of [JavaScriptExecutionService.executeCode] *)

Module Limiter.

Section WithCalls.

(** The arguments of one call of [executeCode(code, language, input, options)]. *)
Variable Call : Type.

(** The three fields of the service that [executeCode] reads and writes. *)
Record Service : Type := mkService {
  maxConcurrentExecutions : Z;
  currentExecutions : Z;
  executionQueue : list Call
}.

(** The constructor; the source sets the limit to 3. *)
Definition create (limit : Z) : Service := mkService limit 0 [].

(** A call either enters the [try] block now or waits in the queue. *)
Inductive Admission : Type := Started | Queued.

(** [executeCode] up to its first [await]: the test on [currentExecutions],
    then [executionQueue.push] or [currentExecutions++]. *)
Definition enter (call : Call) (s : Service) : Admission * Service :=
  if currentExecutions s >=? maxConcurrentExecutions s
  then (Queued,
        mkService (maxConcurrentExecutions s) (currentExecutions s)
          (executionQueue s ++ [call]))
  else (Started,
        mkService (maxConcurrentExecutions s) (currentExecutions s + 1)
          (executionQueue s)).

(** The [finally] block: [currentExecutions--], then [executionQueue.shift()]
    and a new call of [executeCode] for the entry taken out. *)
Definition leave (s : Service) : option (Call * Admission) * Service :=
  let s1 := mkService (maxConcurrentExecutions s) (currentExecutions s - 1)
              (executionQueue s) in
  match executionQueue s1 with
  | [] => (None, s1)
  | nextExecution :: rest =>
      let '(a, s2) := enter nextExecution
                        (mkService (maxConcurrentExecutions s1) (currentExecutions s1) rest) in
      (Some (nextExecution, a), s2)
  end.

(** The service together with what an observer records about it: the calls
    that are inside the [try] block, every call pushed on the queue, and every
    call taken out of it, each in order of occurrence. *)
Record Observed : Type := mkObserved {
  service : Service;
  running : list Call;
  pushed : list Call;
  shifted : list Call
}.

Definition observe (s : Service) : Observed := mkObserved s [] [] [].

(** Removes the element at index [i]. *)
Fixpoint remove_nth (i : nat) (l : list Call) : list Call :=
  match i, l with
  | _, [] => []
  | O, _ :: rest => rest
  | S i', x :: rest => x :: remove_nth i' rest
  end.

(** Somebody calls [executeCode]. *)
Definition submit (call : Call) (o : Observed) : Observed :=
  match enter call (service o) with
  | (Started, s') => mkObserved s' (running o ++ [call]) (pushed o) (shifted o)
  | (Queued, s') => mkObserved s' (running o) (pushed o ++ [call]) (shifted o)
  end.

(** The running call at index [i] reaches its [finally] block. *)
Definition finish (i : nat) (o : Observed) : Observed :=
  let still := remove_nth i (running o) in
  match leave (service o) with
  | (None, s') => mkObserved s' still (pushed o) (shifted o)
  | (Some (next, Started), s') =>
      mkObserved s' (still ++ [next]) (pushed o) (shifted o ++ [next])
  | (Some (next, Queued), s') =>
      mkObserved s' still (pushed o ++ [next]) (shifted o ++ [next])
  end.

(** The states of a service created with the given limit. *)
Inductive reachable (limit : Z) : Observed -> Prop :=
| reach_create : reachable limit (observe (create limit))
| reach_submit : forall o call,
    reachable limit o -> reachable limit (submit call o)
| reach_finish : forall o i,
    reachable limit o -> (i < List.length (running o))%nat ->
    reachable limit (finish i o).

(** What holds of every state of a service created with [limit]. *)
Definition invariant (limit : Z) (o : Observed) : Prop :=
  maxConcurrentExecutions (service o) = limit /\
  currentExecutions (service o) = Z.of_nat (List.length (running o)) /\
  currentExecutions (service o) <= limit /\
  (executionQueue (service o) <> [] -> currentExecutions (service o) = limit) /\
  pushed o = (shifted o ++ executionQueue (service o))%list.

(** The calls of a list, submitted one after the other, none finishing. *)
Fixpoint submit_all (calls : list Call) (o : Observed) : Observed :=
  match calls with
  | [] => o
  | call :: rest => submit_all rest (submit call o)
  end.

End WithCalls.

End Limiter.

(** ** Sample worlds and readings of a trace *)

(** A world without file-system faults, whose VM runs [script] and whose
    [spawn] answers with [child]. *)
Definition sample_world (script : Guest) (child : string -> Child) : World :=
  mkWorld (fun k => 1000 + 10 * Z.of_nat k) (fun _ => "id-0") "/srv/temp"
    (fun _ => None) (fun _ => None) (fun _ => None) true
    (fun _ _ => script) (fun command _ _ => child command).

(** The chunks a child wrote to stdout, concatenated; the same for stderr. *)
Fixpoint stdout_of (events : list ProcEvent) : string :=
  match events with
  | StdoutData d :: rest => d ++ stdout_of rest
  | _ :: rest => stdout_of rest
  | [] => ""
  end.

Fixpoint stderr_of (events : list ProcEvent) : string :=
  match events with
  | StderrData d :: rest => d ++ stderr_of rest
  | _ :: rest => stderr_of rest
  | [] => ""
  end.

Definition is_data (e : ProcEvent) : bool :=
  match e with
  | StdoutData _ | StderrData _ => true
  | _ => false
  end.

(** The calls of [spawn] recorded in a trace: command and argument vector. *)
Fixpoint spawns (t : list Effect) : list (string * list string) :=
  match t with
  | ESpawn command arguments _ :: rest => (command, arguments) :: spawns rest
  | _ :: rest => spawns rest
  | [] => []
  end.

(** The time-out budgets recorded in a trace: of each VM, each [spawn] and
    each timer racing a promise. *)
Fixpoint budgets (t : list Effect) : list Z :=
  match t with
  | ENewVM ms :: rest => ms :: budgets rest
  | ESpawn _ _ options :: rest => timeout options :: budgets rest
  | ESetTimeout PromiseTimeout ms :: rest => ms :: budgets rest
  | _ :: rest => budgets rest
  | [] => []
  end.

(** What a computation added to the trace of the host it started from. *)
Definition added (h h' : Host) : list Effect :=
  skipn (List.length (trace h)) (trace h').

(** A child that writes a warning to stderr and still exits with code 0. *)
Definition noisy_child : Child :=
  Spawned [StderrData "warning: unused"; StdoutData "hi"; Close (Some 0)].

(** The host after the route has drawn the execution id and logged the start. *)
Definition started (req : Request) (w : World) (h : Host) : Host :=
  mkHost (clock h) (S (uuids h)) (fs h)
    (trace h ++ [ELog "log" ("[Execution] Starting execution " ++ w_uuid w (uuids h)
                              ++ " - Language: " ++ language req)]).


(** The same request carrying another [timeoutMs] / [maxOutputBytes]. *)
Definition with_timeoutMs (ms : option Z) (req : Request) : Request :=
  mkRequest (code req) (language req) (input req) (projectId req) (filename req)
    ms (maxOutputBytes req).

Definition with_maxOutputBytes (n : option Z) (req : Request) : Request :=
  mkRequest (code req) (language req) (input req) (projectId req) (filename req)
    (timeoutMs req) n.

(** A Python request that asks for a budget of 2000 ms and a cap of 4 bytes. *)
Definition python_request : Request :=
  mkRequest "while True: pass" "python" None None None (Some 2000) (Some 4).

(** A child that is still running when the runtime ends it with the signal
    of the [timeout] option: [close] comes with a [null] exit code. *)
Definition killed_child : Child := Spawned [Close None].

(** A child that prints ten bytes and exits. *)
Definition chatty_child : Child := Spawned [StdoutData "0123456789"; Close (Some 0)].

(** Number of bytes a child wrote to stdout / stderr. *)
Fixpoint stdout_bytes (events : list ProcEvent) : nat :=
  match events with
  | StdoutData d :: rest => String.length d + stdout_bytes rest
  | _ :: rest => stdout_bytes rest
  | [] => 0
  end.

Fixpoint stderr_bytes (events : list ProcEvent) : nat :=
  match events with
  | StderrData d :: rest => String.length d + stderr_bytes rest
  | _ :: rest => stderr_bytes rest
  | [] => 0
  end.

(** The calls of [spawn] a language and a file name determine: the compiler
    when the entry has a compile step, then the runner. *)
Definition invocations (lang : string) (filename : option string)
  : list (string * list string) :=
  match lookup LANGUAGE_CONFIGS lang with
  | None => []
  | Some config =>
      let name := code_file_name config filename in
      (if flag (compile config)
       then match compiler config with
            | Some c => [(c, compile_args config name)]
            | None => []
            end
       else [])
      ++ [(runner config, run_args config name)]
  end.

(** A Java request whose source does not compile, and the [javac] that
    rejects it. *)
Definition java_request : Request :=
  mkRequest "class A {" "java" None None None None None.

Definition failing_javac (command : string) : Child :=
  if String.eqb command "javac"
  then Spawned [StderrData "code.java:1: error: reached end of file while parsing";
                Close (Some 1)]
  else Spawned [StdoutData "must not run"; Close (Some 0)].

(** Two C++ requests that differ in their source and their input only. *)
Definition cpp_request (source stdin : string) : Request :=
  mkRequest source "cpp" (Some stdin) None (Some "main.cpp") None None.

Definition any_child (command : string) : Child :=
  Spawned [Close (Some 0)].

(** The request of the first concrete scenario and what the VM does with its
    script: one call of [console.log] with the number 4, then completion with
    [undefined]. *)
Definition sum_request : Request :=
  mkRequest "console.log(2+2)" "javascript" None None None None None.

Definition sum_script : Guest :=
  GConsole CLog [Js.VInt (2 + 2)] (GValue Js.VUndefined).

(** The message of the error thrown by the sandbox's [require]. *)
Definition denial (module : string) : string :=
  "Module '" ++ module ++ "' is not allowed in sandbox".

(** The script reaches a [require] of [module], which the sandbox refuses,
    and lets the error propagate out of [vm.run]. *)
Inductive propagates_denial (module : string) : Guest -> Prop :=
| pd_here : forall k,
    existsb (String.eqb module) allowedModules = false ->
    k (RequireThrew (denial module)) = GThrow (denial module) ->
    propagates_denial module (GRequire module k)
| pd_console : forall m arguments k,
    propagates_denial module k ->
    propagates_denial module (GConsole m arguments k)
| pd_require : forall module' k,
    propagates_denial module (k (sandbox_require module')) ->
    propagates_denial module (GRequire module' k).

(** [require('fs').readFileSync('/etc/passwd')] *)
Definition fs_script : Guest :=
  GRequire "fs" (fun reply =>
    match reply with
    | RequireThrew e => GThrow e
    | Loaded _ => GValue (Js.VStr "root:x:0:0")
    end).

(** [try { require('child_process') } catch (e) { } ; 1] *)
Definition catching_script : Guest :=
  GRequire "child_process" (fun _ => GValue (Js.VInt 1)).

Definition js_request (source : string) : Request :=
  mkRequest source "javascript" None None None None None.



(** A host on which the workspace of an earlier execution is still there. *)
Definition host_with_workspace : Host :=
  mkHost 0 0
    (mkFileSystem ["/srv/temp/id-0"] [("/srv/temp/id-0/code.py", "print('hi')")]) [].

(** The workspace of the request being handled on host [h], and the source
    file written into it. *)
Definition workspace (w : World) (h : Host) : string :=
  path_join (w_temp w) (w_uuid w (uuids h)).

Definition source_file (w : World) (h : Host) (config : Config) (req : Request) : string :=
  path_join (workspace w h) (code_file_name config (filename req)).

(** The child that [runCode] gets from [spawn] for the request. *)
Definition run_child (w : World) (h : Host) (config : Config) (req : Request) : Child :=
  w_spawn w (runner config) (run_args config (code_file_name config (filename req)))
    (mkSpawnOptions (workspace w h) EXECUTION_TIMEOUT).

(** The child that [compileCode] gets from [spawn] for the request. *)
Definition compile_child (w : World) (h : Host) (config : Config) (req : Request)
  (c : string) : Child :=
  w_spawn w c (compile_args config (code_file_name config (filename req)))
    (mkSpawnOptions (workspace w h) EXECUTION_TIMEOUT).

(** A validated request for the external-process path. *)
Definition external_request (req : Request) (config : Config) : Prop :=
  validationResult req = [] /\
  lookup LANGUAGE_CONFIGS (language req) = Some config /\
  language req <> "javascript".






(** The workspace of the request gets created and its source file written. *)
Definition workspace_written (w : World) (h : Host) (config : Config) (req : Request) : Prop :=
  w_mkdir_fault w (workspace w h) = None /\
  w_writeFile_fault w (source_file w h config req) = None.

(** The language has no compile step, or its compile step exits with code 0
    after writing [compiled] to stdout. *)
Definition compile_passes (w : World) (h : Host) (config : Config) (req : Request)
  (compiled : string) : Prop :=
  flag (compile config) = false /\ compiled = "" \/
  flag (compile config) = true /\
  exists c data rest,
    compiler config = Some c /\ forallb is_data data = true /\
    compile_child w h config req c = Spawned (data ++ Close (Some 0) :: rest) /\
    compiled = stdout_of data.


(** ** The route around the sandbox *)

(** The outer [catch] block of the route. *)
Definition internal_error (message : string) : M Response :=
  console "error" ("Execution error: " ++ message) ;;;
  executionId <- randomUUID ;;
  ret (mkResponse 500
         (mkBody false (Some executionId) None (Some message) None None None None)).

(** The sandbox path as the route runs it, inside its [try] block. *)
Definition sandboxed (code input executionId : string) : M Response :=
  try_catch (executeJavaScriptSandbox code input executionId) internal_error.

(** ** What can end the process *)


(** The input of the run step is delivered: there is none to write, or the
    stdin of the child raises no [error] event before the step resolves. *)
Definition stdin_delivered (input : string) (events : list ProcEvent) : Prop :=
  input = "" \/ stdin_error events = None.



(** [throw null] *)
Definition null_script : Guest := GThrowValue Js.VNull.



(** ** Further readings of a trace and of the file system *)

(** The effect is a call into the file system or the process table. *)
Definition touches_system (e : Effect) : bool :=
  match e with
  | EMkdir _ | EWriteFile _ _ | ERmdir _ | ESpawn _ _ _ | EStdinWrite _ | EStdinEnd => true
  | ELog _ _ | ENewVM _ | ESetTimeout _ _ => false
  end.



(** The timers set and the directories removed, as recorded in a trace. *)
Fixpoint timers (t : list Effect) : list (Timer * Z) :=
  match t with
  | ESetTimeout callback delay :: rest => (callback, delay) :: timers rest
  | _ :: rest => timers rest
  | [] => []
  end.

Fixpoint removals (t : list Effect) : list string :=
  match t with
  | ERmdir path :: rest => path :: removals rest
  | _ :: rest => removals rest
  | [] => []
  end.

(** [fs.readFile(path)]: the content of the file, when there is one. *)
Fixpoint read_file (path : string) (fl : list (string * string)) : option string :=
  match fl with
  | [] => None
  | (p, content) :: rest =>
      match read_file path rest with
      | Some later => Some later
      | None => if String.eqb p path then Some content else None
      end
  end.

(** A host whose disk holds somebody else's files. *)
Definition busy_host : Host :=
  mkHost 0 0
    (mkFileSystem ["/srv/temp/id-9"; "/srv/uploads"]
       [("/srv/temp/id-9/code.js", "1"); ("/srv/uploads/a.txt", "a")]) [].

(** A request with input for a compiled language, and a toolchain that
    compiles and runs it. *)
Definition cpp_sum_request : Request :=
  mkRequest "int main(){int a,b;std::cin>>a>>b;std::cout<<a+b;}" "cpp"
    (Some "1 2") None None None None.


(** The answer carries trimmed fields: its [output], and its [error] when it
    reports success or comes from the run step. *)
Definition trimmed_answer (response : Response) : Prop :=
  (forall out, output (body response) = Some out -> Js.trim out = out) /\
  (success (body response) = true \/ stage (body response) = Some "execution" ->
   forall e, error (body response) = Some e -> Js.trim e = e).

(** The file system once [fs.mkdir] has created the workspace [ws] and
    [fs.writeFile] has written [content] to [path]. *)
Definition written (ws path content : string) (f : FileSystem) : FileSystem :=
  let f1 := if has_dir ws f then f else mkFileSystem (dirs f ++ [ws]) (files f) in
  mkFileSystem (dirs f1)
    (filter (fun e => negb (String.eqb (fst e) path)) (files f1) ++ [(path, content)]).


(** A call of [fs.mkdir], [fs.writeFile] or [fs.rmdir], and the path it
    names. *)
Definition is_fs_call (e : Effect) : bool :=
  match e with
  | EMkdir _ | EWriteFile _ _ | ERmdir _ => true
  | _ => false
  end.

Definition fs_path (e : Effect) : string :=
  match e with
  | EMkdir path | EWriteFile path _ | ERmdir path => path
  | _ => ""
  end.

(** ** The route [GET /languages] *)

(** One element of the [languages] array of the answer. *)
Record LanguageInfo : Type := mkLanguageInfo {
  li_id : string;
  li_name : string;
  li_extension : string;
  li_supportsInput : bool;
  li_hasCompilation : bool;
  li_sandbox : bool
}.

(** [c.toUpperCase()] for one code unit below 256: the letters a-z and the
    accented letters 224-254 (not the division sign 247) move down by 32.
    The three code units whose upper-case form is not a single code unit
    below 256 (181, 223, 255) are left as they are; no key of the table
    contains them. *)
Definition toUpperCase_unit (c : ascii) : ascii :=
  let n := nat_of_ascii c in
  if ((Nat.leb 97 n && Nat.leb n 122) ||
      (Nat.leb 224 n && Nat.leb n 254 && negb (Nat.eqb n 247)))%bool
  then ascii_of_nat (n - 32)
  else c.

(** [lang.charAt(0).toUpperCase() + lang.slice(1)] *)
Definition capitalize (lang : string) : string :=
  match lang with
  | EmptyString => EmptyString
  | String c rest => String (toUpperCase_unit c) rest
  end.

(** [Object.keys(LANGUAGE_CONFIGS).map(lang => ({ ... }))]; [x || false] of
    the source is [flag x]. *)
Definition languages : list LanguageInfo :=
  map (fun entry : string * Config =>
         let (lang, config) := entry in
         mkLanguageInfo lang (capitalize lang) (extension config) true
           (flag (compile config)) (flag (sandbox config)))
      LANGUAGE_CONFIGS.

(** ** The route [POST /validate] *)

(** One element of [validation.issues]; its [line] is always [null], and its
    [message] is absent when it is [undefined]. *)
Record Issue : Type := mkIssue {
  i_type : string;
  i_message : option string
}.

Record Validation : Type := mkValidation {
  v_success : bool;
  v_language : string;
  v_issues : list Issue;
  v_suggestions : list string
}.

(** The JSON object given to [res.json] by the route. *)
Record ValidateBody : Type := mkValidateBody {
  vb_success : bool;
  vb_validation : option Validation;
  vb_errors : option (list ValidationError);
  vb_error : option string
}.

Record ValidateResponse : Type := mkValidateResponse {
  vr_status : Z;
  vr_body : ValidateBody
}.

(** [validationResult(req).array()] for the validators of [/validate]: the
    language first, then the code. *)
Definition validate_validationResult (req : Request) : list ValidationError :=
  (if existsb (String.eqb (language req)) language_keys
   then [] else [mkValidationError "language" "Unsupported language" (language req)])
  ++
  (if (String.length (code req) =? 0)%nat
   then [mkValidationError "code" "Code is required" (code req)] else []).

(** [s] without its prefix [p], when it has that prefix. *)
Fixpoint strip (p s : string) : option string :=
  match p with
  | EmptyString => Some s
  | String a p' =>
      match s with
      | EmptyString => None
      | String b s' => if Ascii.eqb a b then strip p' s' else None
      end
  end.

(** A regular expression without anchors matches when it matches at some
    position: [here] tells whether it matches at the start of a string. *)
Fixpoint anywhere (here : string -> bool) (s : string) : bool :=
  (here s ||
   match s with
   | EmptyString => false
   | String _ s' => anywhere here s'
   end)%bool.

(** [name\s*\(] at the start of a string: the name, any white space, an
    opening parenthesis. *)
Definition call_of (name s : string) : bool :=
  match strip name s with
  | Some rest => String.prefix "(" (Js.trimStart rest)
  | None => false
  end.

(** [/eval\s*\(/.test(code)], [/Function\s*\(/.test(code)] and
    [/document\.write/.test(code)] *)
Definition tests_eval (code : string) : bool := anywhere (call_of "eval") code.
Definition tests_Function (code : string) : bool := anywhere (call_of "Function") code.
Definition tests_document_write (code : string) : bool :=
  anywhere (String.prefix "document.write") code.

(** [securityPatterns], each with its message. *)
Definition securityPatterns : list ((string -> bool) * string) :=
  [ (tests_eval, "Avoid using eval() - security risk");
    (tests_Function, "Avoid using Function constructor - security risk");
    (tests_document_write, "Avoid document.write - can break page structure") ].

(** The issues that [securityPatterns.forEach] pushes. *)
Definition security_issues (code : string) : list Issue :=
  flat_map (fun entry : (string -> bool) * string =>
              if fst entry code then [mkIssue "security" (Some (snd entry))] else [])
           securityPatterns.

(** The script handed to the VM of the route. *)
Definition wrapped (code : string) : string := "(function() { " ++ code ++ " })()".

Inductive Verdict : Type :=
| Passes
| Throws (message : string)
| ThrowsValue (v : Js.Val).

Section Validate.

(** What [vm.run] does with a script in the VM of this route, whose sandbox
    object is empty: it returns, it throws an [Error] (a syntax error, an
    error of the script, the time-out of 1000 ms), or it throws a value that
    is not an [Error] and has no [message]. *)
Variable vm_check : string -> Verdict.

Definition validate (req : Request) : M ValidateResponse :=
  try_catch
    (let errors := validate_validationResult req in
     if negb (isEmpty errors) then
       ret (mkValidateResponse 400 (mkValidateBody false None (Some errors) None))
     else
       checked <-
         (if (String.eqb (language req) "javascript"
              || String.eqb (language req) "typescript")%bool
          then
            emit (ENewVM 1000) ;;;
            match vm_check (wrapped (code req)) with
            | Passes => ret (mkValidation true (language req) [] ["Syntax appears valid"])
            | Throws message =>
                ret (mkValidation false (language req) [mkIssue "syntax" (Some message)] [])
            | ThrowsValue v =>
                match Js.message_TypeError v with
                | None => ret (mkValidation false (language req) [mkIssue "syntax" None] [])
                | Some typeError => throw typeError   (* [error.message] throws *)
                end
            end
          else ret (mkValidation true (language req) [] [])) ;;
       let validation :=
         mkValidation (v_success checked) (v_language checked)
           (v_issues checked ++ security_issues (code req)) (v_suggestions checked) in
       ret (mkValidateResponse 200 (mkValidateBody true (Some validation) None None)))
    (fun message =>
       console "error" ("[Execution] Validation error: " ++ message) ;;;
       ret (mkValidateResponse 500
              (mkValidateBody false None None (Some "Validation failed")))).

End Validate.

(** Every character of the string is white space. *)
Fixpoint all_space (s : string) : bool :=
  match s with
  | EmptyString => true
  | String c s' => (Js.is_space c && all_space s')%bool
  end.

(** A VM that accepts every script, one that rejects every script, and one in
    which every script throws [null]. *)
Definition accepting (script : string) : Verdict := Passes.
Definition rejecting (script : string) : Verdict := Throws "Unexpected token '}'".

(** The VM of [/validate] throws [null] or [undefined] on the script. *)
Definition check_throws_nullish (verdict : Verdict) : Prop :=
  exists v, verdict = ThrowsValue v /\ Js.message_TypeError v <> None.

(** *** The validators of the two routes *)

(** The chains handed to [router.post], as the source lists them: the field,
    whether the chain is [optional()], the standard validator and the
    message of [withMessage]. *)
Inductive Field : Type := FCode | FLanguage | FProjectId.

Inductive Rule : Type :=
| IsLength (min : nat)
| IsIn (values : list string)
| IsString.

Record Validator : Type := mkValidator {
  on_field : Field;
  is_optional : bool;
  rule : Rule;
  withMessage : option string
}.

Definition execute_validators : list Validator :=
  [ mkValidator FCode false (IsLength 1) (Some "Code is required");
    mkValidator FLanguage false (IsIn language_keys) (Some "Unsupported language");
    mkValidator FProjectId true IsString None ].

Definition validate_validators : list Validator :=
  [ mkValidator FLanguage false (IsIn language_keys) (Some "Unsupported language");
    mkValidator FCode false (IsLength 1) (Some "Code is required") ].

(** [validationResult(req).array()] holds one error for each validator that
    fails on the body, in the order of the chains; how a validator judges a
    body is the library's business. *)
Definition failing {RawBody : Type} (fails : Validator -> RawBody -> bool)
  (chains : list Validator) (b : RawBody) : list Validator :=
  filter (fun v => fails v b) chains.

(** The validators on a body whose fields are strings: [isString] cannot
    fail there. *)
Definition field_name (f : Field) : string :=
  match f with
  | FCode => "code"
  | FLanguage => "language"
  | FProjectId => "projectId"
  end.

Definition field_value (f : Field) (req : Request) : option string :=
  match f with
  | FCode => Some (code req)
  | FLanguage => Some (language req)
  | FProjectId => projectId req
  end.

Definition fails_on_strings (v : Validator) (req : Request) : bool :=
  match field_value (on_field v) req with
  | None => false
  | Some s =>
      match rule v with
      | IsLength min => (String.length s <? min)%nat
      | IsIn values => negb (existsb (String.eqb s) values)
      | IsString => false
      end
  end.

Definition error_of (req : Request) (v : Validator) : ValidationError :=
  mkValidationError (field_name (on_field v))
    (match withMessage v with Some m => m | None => "Invalid value" end)
    (match field_value (on_field v) req with Some s => s | None => "" end).

(** ** The client: [JavaScriptExecutionService] *)

Module Client.

(** [c.toLowerCase()] for one code unit below 256: the letters A-Z and the
    accented capitals 192-222 (not the multiplication sign 215) move up by
    32. *)
Definition toLowerCase_unit (c : ascii) : ascii :=
  let n := nat_of_ascii c in
  if ((Nat.leb 65 n && Nat.leb n 90) ||
      (Nat.leb 192 n && Nat.leb n 222 && negb (Nat.eqb n 215)))%bool
  then ascii_of_nat (n + 32)
  else c.

(** [s.toLowerCase()] *)
Fixpoint toLowerCase (s : string) : string :=
  match s with
  | EmptyString => EmptyString
  | String c s' => String (toLowerCase_unit c) (toLowerCase s')
  end.

(** The [options] argument, as far as the service reads it. *)
Record Options : Type := mkOptions {
  forceLocal : bool;
  timeout : option Z
}.

(** The arguments of [executeCode]. *)
Record Call : Type := mkCall {
  c_code : string;
  c_language : string;
  c_input : string;
  c_options : Options
}.

(** How [fetch] of the backend ends: it rejects, it answers with a status
    that is not ok, it answers with a JSON body, or it never settles. *)
Inductive FetchAnswer : Type :=
| Rejects (message : string)
| NotOk (statusText : string)
| Json (b : Body)
| NoAnswer.

(** The object a worker posts: [success], [output], [error] (absent on
    success), [result]. *)
Record Message : Type := mkMessage {
  m_success : bool;
  m_output : string;
  m_error : option string;
  m_result : Js.Val
}.

(** The console handed to the code inside the worker has three methods. *)
Inductive WorkerConsole : Type := WLog | WError | WWarn.

(** What the code does when the worker runs it as the body of a function of
    [console] and [input]. *)
Inductive Script : Type :=
| SReturn (v : Js.Val)
| SThrow (message : string)
| SLoop
| SConsole (m : WorkerConsole) (arguments : list Js.Val) (k : Script).

(** [args.join(' ')]: [null] and [undefined] give the empty string. *)
Definition join_values (arguments : list Js.Val) : string :=
  Js.join " " (map (fun v => match v with
                             | Js.VUndefined | Js.VNull => ""
                             | v => Js.String_ v
                             end) arguments).

(** The [onmessage] handler of the worker script built by
    [initializeWebWorker]: inside its template literal ['\\n'] is a line
    feed.  [None]: the code does not return, nothing is posted. *)
Fixpoint worker_onmessage (s : Script) (output : string) : option Message :=
  match s with
  | SReturn v => Some (mkMessage true output None v)
  | SThrow e => Some (mkMessage false "" (Some e) Js.VUndefined)
  | SLoop => None
  | SConsole WLog arguments k =>
      worker_onmessage k (output ++ join_values arguments ++ Js.LF)
  | SConsole WError arguments k =>
      worker_onmessage k (output ++ "ERROR: " ++ join_values arguments ++ Js.LF)
  | SConsole WWarn arguments k =>
      worker_onmessage k (output ++ "WARN: " ++ join_values arguments ++ Js.LF)
  end.

(** Everything the browser decides. *)
Record Browser : Type := mkBrowser {
  b_status : FetchAnswer;                       (* GET /execution/status *)
  b_execute : string -> string -> string -> FetchAnswer;
                                                (* POST /execution/execute: language, code, input *)
  b_objectURL : string;                         (* [URL.createObjectURL(blob)] *)
  b_worker : option string -> option string;    (* [new Worker(url)] fails to start: [onerror] *)
  b_script : string -> string -> Script;        (* the code run with this input *)
  b_pyodide : option (string -> option string); (* [window.pyodide]; [runPython] throws *)
  b_iframe : string -> option string;           (* [contentDocument.write] throws *)
  b_style : string -> option string             (* appending the style element throws *)
}.

(** The result object of one language runner. *)
Inductive Result : Type :=
| FromBackend (b : Body)
| FromWorker (m : Message)
| Plain (success : bool) (output : string) (error : option string) (mark : option string).

(** Calls into the browser and events of the service, in order. *)
Inductive Effect : Type :=
| Fetch (language code input : string)
| FetchStatus
| Warn (text : string)
| Log (text : string)
| StartWorker (url : option string) (budget : Z)
| TerminateWorker
| RunPython (code : string)
| AppendIframe
| RemoveIframe
| AppendStyle
| RemoveStyleLater (delay : Z)
| CaptureConsole
| CreateWorkerScript
| StartMonitoring
| Emit (event : string).

(** How an asynchronous function ends. *)
Inductive Completion (A : Type) : Type :=
| Done (a : A)
| Raised (message : string)
| Hangs.
Arguments Done {A} a.
Arguments Raised {A} message.
Arguments Hangs {A}.

(** The fields of the service that the functions below read and write. *)
Record Service : Type := mkService {
  isInitialized : bool;
  offlineMode : option bool;        (* never assigned by the class: [undefined] *)
  workerURL : option string
}.

(** The constructor. *)
Definition create : Service := mkService false None None.

(** [isBackendAvailable()]: [this.isInitialized && !this.offlineMode] *)
Definition isBackendAvailable (s : Service) : bool :=
  (isInitialized s && negb (flag (offlineMode s)))%bool.

(** [initialize()].  Once [setupConsoleCapture] has run, every call of the
    console also emits the event [consoleOutput]. *)
Definition initialize (b : Browser) (s : Service) : list Effect * Service :=
  if isInitialized s then ([], s)
  else
    match b_status b with
    | Json _ =>
        ([FetchStatus; Log "[ExecutionService] Backend connected:";
          CaptureConsole; CreateWorkerScript; StartMonitoring; Emit "initialized";
          Log "[ExecutionService] Advanced multi-language execution initialized";
          Emit "consoleOutput"],
         mkService true (offlineMode s) (Some (b_objectURL b)))
    | NoAnswer => ([FetchStatus], s)
    | _ =>
        ([FetchStatus;
          Warn "[ExecutionService] Backend unavailable, using client-side execution";
          CaptureConsole; Emit "initialized"],
         mkService true (offlineMode s) (workerURL s))
    end.

(** [executeOnBackend(language, code, input, options)] *)
Definition executeOnBackend (b : Browser) (language code input : string)
  : list Effect * Completion Result :=
  ([Fetch language code input],
   match b_execute b language code input with
   | Rejects e => Raised e
   | NotOk statusText => Raised ("Backend execution failed: " ++ statusText)
   | Json body => Done (FromBackend body)
   | NoAnswer => Hangs
   end).

(** [options.timeout || 10000] *)
Definition worker_budget (o : Options) : Z :=
  match timeout o with
  | Some 0 | None => 10000
  | Some ms => ms
  end.

(** The local part of [executeJavaScript]: the worker and its timer. *)
Definition runInWorker (b : Browser) (s : Service) (code input : string) (o : Options)
  : list Effect * Completion Result :=
  match b_worker b (workerURL s) with
  | Some e => ([StartWorker (workerURL s) (worker_budget o); TerminateWorker], Raised e)
  | None =>
      match worker_onmessage (b_script b code input) "" with
      | Some m =>
          ([StartWorker (workerURL s) (worker_budget o); TerminateWorker],
           Done (FromWorker m))
      | None =>
          ([StartWorker (workerURL s) (worker_budget o); TerminateWorker],
           Raised "Execution timeout")
      end
  end.

(** [executeJavaScript(code, input, options)] *)
Definition executeJavaScript (b : Browser) (s : Service) (code input : string) (o : Options)
  : list Effect * Completion Result :=
  if (negb (forceLocal o) && isBackendAvailable s)%bool then
    match executeOnBackend b "javascript" code input with
    | (t, Raised _) =>
        let (t', r) := runInWorker b s code input o in
        ((t ++ Warn "[ExecutionService] Backend execution failed, falling back to local"
            :: Emit "consoleOutput" :: t')%list, r)
    | answered => answered
    end
  else runInWorker b s code input o.

(** [executeTypeScript(code, input, options)] *)
Definition executeTypeScript (b : Browser) (s : Service) (code input : string) (o : Options)
  : list Effect * Completion Result :=
  executeJavaScript b s code input o.

(** The part of [executePython] that follows the backend. *)
Definition runInPyodide (b : Browser) (code : string) : list Effect * Completion Result :=
  match b_pyodide b with
  | Some runPython =>
      ([RunPython code],
       match runPython code with
       | None => Done (Plain true "Python execution completed (client-side)" None None)
       | Some e => Done (Plain false "" (Some e) None)
       end)
  | None =>
      ([], Done (Plain false ""
                   (Some "Python runtime not available. Install Pyodide for client-side execution.")
                   None))
  end.

(** [executePython(code, input, options)] *)
Definition executePython (b : Browser) (s : Service) (code input : string) (o : Options)
  : list Effect * Completion Result :=
  if isBackendAvailable s then
    match executeOnBackend b "python" code input with
    | (t, Raised _) =>
        let (t', r) := runInPyodide b code in
        ((t ++ Warn "[ExecutionService] Backend Python execution failed"
            :: Emit "consoleOutput" :: t')%list, r)
    | answered => answered
    end
  else runInPyodide b code.

(** [executeHTML(code, options)] *)
Definition executeHTML (b : Browser) (code : string) : list Effect * Completion Result :=
  ([AppendIframe; RemoveIframe],
   match b_iframe b code with
   | None => Done (Plain true "HTML rendered successfully" None (Some "rendered"))
   | Some e => Done (Plain false "" (Some e) None)
   end).

(** [executeCSS(code, options)] *)
Definition executeCSS (b : Browser) (code : string) : list Effect * Completion Result :=
  match b_style b code with
  | None =>
      ([AppendStyle; RemoveStyleLater 5000],
       Done (Plain true "CSS applied successfully" None (Some "applied")))
  | Some e => ([], Done (Plain false "" (Some e) None))
  end.

(** The [switch] of [executeCode]. *)
Definition dispatch (b : Browser) (s : Service) (call : Call)
  : list Effect * Completion Result :=
  let language := toLowerCase (c_language call) in
  if (String.eqb language "javascript" || String.eqb language "js")%bool then
    executeJavaScript b s (c_code call) (c_input call) (c_options call)
  else if (String.eqb language "typescript" || String.eqb language "ts")%bool then
    executeTypeScript b s (c_code call) (c_input call) (c_options call)
  else if (String.eqb language "python" || String.eqb language "py")%bool then
    executePython b s (c_code call) (c_input call) (c_options call)
  else if String.eqb language "html" then executeHTML b (c_code call)
  else if String.eqb language "css" then executeCSS b (c_code call)
  else ([], Raised ("Unsupported language: " ++ c_language call)).

(** What [executeCode] returns: the result of the runner with the
    [executionId] of the service put over it.  (The two [executionTime]
    fields, differences of floating-point readings of the clock, are left
    out.) *)
Record Answer : Type := mkAnswer {
  a_result : Result;
  a_executionId : string
}.

(** One element of [executionHistory] (without [executionTime] and
    [timestamp]). *)
Record Entry : Type := mkEntry {
  e_id : string;
  e_language : string;
  e_code : string;
  e_result : Result
}.

(** [executionHistory.push(entry)], then [shift()] when more than 50 are
    kept. *)
Definition remember {A} (entry : A) (history : list A) : list A :=
  let history' := (history ++ [entry])%list in
  if (50 <? List.length history')%nat then tl history' else history'.

(** The entries of a list remembered one after the other. *)
Definition remember_all {A} (entries : list A) (history : list A) : list A :=
  fold_left (fun h e => remember e h) entries history.

(** The [try], [catch] of [executeCode], between [currentExecutions++] and
    the [finally] block: the events, the runner, the history. *)
Definition attempt (b : Browser) (s : Service) (executionId : string) (call : Call)
  (history : list Entry) : list Effect * option Answer * list Entry :=
  match dispatch b s call with
  | (t, Done result) =>
      ((Emit "executionStarted" :: t ++ [Emit "executionCompleted"])%list,
       Some (mkAnswer result executionId),
       remember (mkEntry executionId (c_language call) (c_code call) result) history)
  | (t, Raised e) =>
      ((Emit "executionStarted" :: t ++ [Emit "executionError"])%list,
       Some (mkAnswer (Plain false "" (Some e) None) executionId),
       history)
  | (t, Hangs) => ((Emit "executionStarted" :: t)%list, None, history)
  end.

(** The calls of the backend recorded in a trace. *)
Fixpoint fetches (t : list Effect) : list (string * string * string) :=
  match t with
  | Fetch language code input :: rest => (language, code, input) :: fetches rest
  | _ :: rest => fetches rest
  | [] => []
  end.

(** The workers started, with their budgets. *)
Fixpoint workers (t : list Effect) : list Z :=
  match t with
  | StartWorker _ budget :: rest => budget :: workers rest
  | _ :: rest => workers rest
  | [] => []
  end.

(** The languages the [switch] knows, in lower case. *)
Definition spellings : list string :=
  ["javascript"; "js"; "typescript"; "ts"; "python"; "py"; "html"; "css"].

(** [setupPerformanceMonitoring]: one tick of the interval, on the map
    [memoryUsage] (keys in insertion order).  [sample] is
    [performance.memory], absent in some browsers. *)
Fixpoint map_set {V} (key : Z) (value : V) (m : list (Z * V)) : list (Z * V) :=
  match m with
  | [] => [(key, value)]
  | (k, v) :: rest =>
      if Z.eqb k key then (k, value) :: rest else (k, v) :: map_set key value rest
  end.

Definition monitor {V} (now : Z) (sample : option V) (m : list (Z * V)) : list (Z * V) :=
  match sample with
  | None => m
  | Some value =>
      let m' := map_set now value m in
      if (100 <? List.length m')%nat then tl m' else m'
  end.

(** A browser in which the backend is down and nothing else fails. *)
Definition offline_browser : Browser :=
  mkBrowser (Rejects "Failed to fetch") (fun _ _ _ => Rejects "Failed to fetch")
    "blob:1" (fun _ => None)
    (fun _ _ => SConsole WLog [Js.VStr "hi"] (SReturn Js.VUndefined))
    None (fun _ => None) (fun _ => None).

(** A browser whose backend answers every execution with the given body. *)
Definition online_browser (body : Body) : Browser :=
  mkBrowser (Json body) (fun _ _ _ => Json body)
    "blob:1" (fun _ => None)
    (fun _ _ => SReturn Js.VUndefined)
    None (fun _ => None) (fun _ => None).

End Client.

(** The call names JavaScript or TypeScript, or Python, in any case of
    letters. *)
Definition speaks_javascript (call : Client.Call) : bool :=
  let language := Client.toLowerCase (Client.c_language call) in
  (String.eqb language "javascript" || String.eqb language "js"
   || String.eqb language "typescript" || String.eqb language "ts")%bool.

Definition speaks_python (call : Client.Call) : bool :=
  let language := Client.toLowerCase (Client.c_language call) in
  (String.eqb language "python" || String.eqb language "py")%bool.

(** A call in TypeScript, spelled with capitals. *)
Definition typescript_call : Client.Call :=
  Client.mkCall "let x: number = 1" "TypeScript" "" (Client.mkOptions false None).

(** ** [AIService.hashCode] *)

(** The conversion of a number to a signed 32-bit integer that the operators
    [<<] and [&] apply to their operands and their result; the constants are
    2^31 and 2^32. *)
Definition toInt32 (z : Z) : Z := (z + 2147483648) mod 4294967296 - 2147483648.

(** One turn of the loop: [hash = ((hash << 5) - hash) + char] and then
    [hash = hash & hash]. *)
Definition hash_step (hash : Z) (c : ascii) : Z :=
  let char := Z.of_nat (nat_of_ascii c) in
  let hash' := (toInt32 (Z.shiftl (toInt32 hash) 5) - hash) + char in
  toInt32 (Z.land (toInt32 hash') (toInt32 hash')).

Fixpoint hash_loop (str : string) (hash : Z) : Z :=
  match str with
  | EmptyString => hash
  | String c rest => hash_loop rest (hash_step hash c)
  end.

(** [hashCode(str)] *)
Definition hashCode (str : string) : string := Js.String_ (Js.VInt (hash_loop str 0)).

(** The key under which [analyzeCode] caches the analysis of a code. *)
Definition cacheKey (language code : string) : string :=
  language ++ ":" ++ hashCode code.

(** The polynomial in 31 whose coefficients are the code units of the string,
    in the integers. *)
Fixpoint horner (str : string) (acc : Z) : Z :=
  match str with
  | EmptyString => acc
  | String c rest => horner rest (31 * acc + Z.of_nat (nat_of_ascii c))
  end.

(** A toolchain whose compiler prints a note on stdout before it succeeds. *)
Definition noting_toolchain (command : string) : Child :=
  if String.eqb command "g++"
  then Spawned [StdoutData "note: optimised "; Close (Some 0)]
  else Spawned [StdoutData "3"; Close (Some 0)].

(** ** File names that [path.join] appends as they are *)

(** [path.join] normalises its result; [path_join] does not.  The two agree
    on a name that holds no separator and is not a dot segment. *)
Definition plain_name (name : string) : bool :=
  (negb (anywhere (String.prefix "/") name) &&
   negb (String.eqb name ".") && negb (String.eqb name ".."))%bool.

(** The [filename] of a request is absent or plain, so that the source file
    of the request lies in its workspace. *)
Definition plain_filename (filename : option string) : bool :=
  match filename with
  | Some f => plain_name f
  | None => true
  end.

(** A world that hands out two execution ids. *)
Definition serial_world (child : string -> Child) : World :=
  mkWorld (fun k => 1000 + 10 * Z.of_nat k)
    (fun k => match k with O => "id-0" | _ => "id-1" end) "/srv/temp"
    (fun _ => None) (fun _ => None) (fun _ => None) true
    (fun _ _ => GValue Js.VUndefined) (fun command _ _ => child command).

(** * Sanity checks of the model *)

Example trim_strips_both_ends : Js.trim ("  a b " ++ Js.LF) = "a b".
Proof. reflexivity. Qed.

Example trim_keeps_backslash_n :
  Js.trim ("4" ++ Js.backslash_n) = "4" ++ Js.backslash_n.
Proof. reflexivity. Qed.

Example String_of_sum : Js.String_ (Js.VInt (2 + 2)) = "4".
Proof. reflexivity. Qed.

Example format_mixed :
  format [Js.VStr "x ="; Js.VInt (-7); Js.VNull; Js.VBool true] = "x = -7 null true".
Proof. reflexivity. Qed.

Example unknown_language_is_rejected :
  map ve_msg (validationResult (mkRequest "" "cobol" None None None None None))
  = ["Code is required"; "Unsupported language"].
Proof. reflexivity. Qed.

Example go_invocation :
  invocations "go" None = [("go", ["run"; "code.go"])].
Proof. reflexivity. Qed.

Example cpp_invocations :
  invocations "cpp" (Some "main.cpp")
  = [("g++", ["-o"; "program"; "main.cpp"]); ("./program", [])].
Proof. reflexivity. Qed.

Example listen_first_settlement_wins :
  listen "Execution failed: "
    [StdoutData "a"; ErrorEvent "spawn python ENOENT"; Close (Some (-2))] "" ""
  = Some (mkProcResult false "" "Execution failed: spawn python ENOENT").
Proof. reflexivity. Qed.

Example listen_without_close : listen "Execution failed: " [StdoutData "a"] "" "" = None.
Proof. reflexivity. Qed.

Example python_trace :
  trace (snd (execute python_request
                (sample_world (GValue Js.VUndefined) (fun _ => chatty_child)) fresh))
  = [ ELog "log" "[Execution] Starting execution id-0 - Language: python";
      EMkdir "/srv/temp/id-0";
      EWriteFile "/srv/temp/id-0/code.py" "while True: pass";
      ELog "log" "[Execution] python -u code.py";
      ESpawn "python" ["-u"; "code.py"] (mkSpawnOptions "/srv/temp/id-0" 30000);
      ESetTimeout (CleanupTempDir "/srv/temp/id-0") 5000 ].
Proof. vm_compute. reflexivity. Qed.

Example stdin_error_before_close :
  stdin_error [StdoutData "a"; StdinError "write EPIPE"; Close (Some 0)] = Some "write EPIPE" /\
  stdin_error [StdoutData "a"; Close (Some 0); StdinError "write EPIPE"] = None.
Proof. split; reflexivity. Qed.

Example throw_null_is_answered_500 :
  exists response,
    fst (execute (js_request "throw null") (sample_world null_script any_child) fresh)
    = Ok response /\
    status response = 500 /\
    error (body response) = Js.message_TypeError Js.VNull.
Proof. eexists. split; [vm_compute; reflexivity|]. split; reflexivity. Qed.

Example limiter_three_then_queue :
  let o := Limiter.submit_all string ["a"; "b"; "c"; "d"; "e"]
             (Limiter.observe string (Limiter.create string 3)) in
  Limiter.running string o = ["a"; "b"; "c"] /\
  Limiter.executionQueue string (Limiter.service string o) = ["d"; "e"] /\
  Limiter.running string (Limiter.finish string 1 o) = ["a"; "c"; "d"] /\
  Limiter.executionQueue string (Limiter.service string (Limiter.finish string 1 o)) = ["e"].
Proof. vm_compute. repeat split. Qed.

(** * Properties *)

(** ** Strings and listeners *)

Lemma append_assoc (a b c : string) : (a ++ b) ++ c = a ++ (b ++ c).
Proof. induction a as [|x a IH]; simpl; [reflexivity | now rewrite IH]. Qed.

Lemma append_empty_r (a : string) : a ++ "" = a.
Proof. induction a as [|x a IH]; simpl; [reflexivity | now rewrite IH]. Qed.

Lemma length_append (a b : string) :
  String.length (a ++ b) = (String.length a + String.length b)%nat.
Proof. induction a as [|x a IH]; simpl; [reflexivity | now rewrite IH]. Qed.

(** The listeners accumulate every chunk that arrives before the child
    closes or fails. *)
Lemma listen_data failure data tail :
  forallb is_data data = true ->
  forall output error,
    listen failure (data ++ tail) output error =
    listen failure tail (output ++ stdout_of data) (error ++ stderr_of data).
Proof.
  intros Hdata. induction data as [|e data IH]; intros output error; simpl.
  - now rewrite !append_empty_r.
  - simpl in Hdata. apply andb_true_iff in Hdata as [He Hdata].
    destruct e; try discriminate; simpl; rewrite (IH Hdata), append_assoc; reflexivity.
Qed.

Lemma listen_close failure data exitCode rest :
  forallb is_data data = true ->
  listen failure (data ++ Close exitCode :: rest) "" "" =
  Some (mkProcResult (is_zero exitCode) (stdout_of data)
          (if is_zero exitCode then "" else stderr_of data)).
Proof.
  intros Hdata. rewrite (listen_data _ _ _ Hdata). simpl.
  destruct (is_zero exitCode); reflexivity.
Qed.



Lemma stdin_error_data data tail :
  forallb is_data data = true -> stdin_error (data ++ tail) = stdin_error tail.
Proof.
  induction data as [|e data IH]; [reflexivity|]. cbn [forallb app].
  intros H. apply andb_true_iff in H as [He Hd].
  destruct e; try discriminate He; cbn [stdin_error]; exact (IH Hd).
Qed.

Lemma stdout_of_length data : String.length (stdout_of data) = stdout_bytes data.
Proof.
  induction data as [|e data IH]; [reflexivity|].
  destruct e; simpl; try exact IH. now rewrite length_append, IH.
Qed.

Lemma stderr_of_length data : String.length (stderr_of data) = stderr_bytes data.
Proof.
  induction data as [|e data IH]; [reflexivity|].
  destruct e; simpl; try exact IH. now rewrite length_append, IH.
Qed.

(** ** Reasoning about host computations *)

Ltac host_unfold :=
  cbv [bind ret throw never crash try_catch world host emit now randomUUID console set_fs
       mkdir writeFile rmdir spawn settle sandbox_success].

Ltac host_simpl :=
  cbn [fst snd clock uuids fs trace
       w_now w_uuid w_temp w_mkdir_fault w_writeFile_fault w_rmdir_fault w_rmdir_enoent
       w_vm_run w_spawn].

Ltac split_path :=
  match goal with
  | |- context [match ?x with _ => _ end] =>
      lazymatch x with
      | context [match _ with _ => _ end] => fail
      | _ => destruct x eqn:?
      end
  end.

Ltac paths := repeat (split_path; cbv beta iota; host_simpl).

Lemma added_app (h h' : Host) (d : list Effect) :
  trace h' = (trace h ++ d)%list -> added h h' = d.
Proof.
  intros E. unfold added. rewrite E. clear E.
  induction (trace h) as [|x t IH]; simpl; [reflexivity | exact IH].
Qed.

Lemma nth_error_firstn_some {A} (l : list A) n k a :
  nth_error (firstn n l) k = Some a -> nth_error l k = Some a.
Proof.
  revert n k. induction l as [|x l IH]; intros [|n] [|k]; simpl; try discriminate; auto.
  apply IH.
Qed.

(** A [try] whose [catch] block cannot throw does not throw. *)
Lemma try_catch_safe {A} (body : M A) (handler : string -> M A) :
  (forall e w h e', fst (handler e w h) <> Threw e') ->
  forall w h e', fst (try_catch body handler w h) <> Threw e'.
Proof.
  intros Hh w h e'. unfold try_catch.
  destruct (body w h) as [[a|e| |e] h1] eqn:E; simpl; try discriminate.
  apply Hh.
Qed.

(** A [try] whose body does not throw is its body. *)
Lemma try_catch_body {A} (body : M A) (handler : string -> M A) w h :
  (forall e, fst (body w h) <> Threw e) ->
  try_catch body handler w h = body w h.
Proof.
  intros Hb. unfold try_catch.
  destruct (body w h) as [[a|e| |e] h1] eqn:E; try reflexivity.
  exfalso. apply (Hb e). reflexivity.
Qed.

(** ** The language table and the validators *)

Lemma lookup_javascript : lookup LANGUAGE_CONFIGS "javascript" = Some cfg_javascript.
Proof. reflexivity. Qed.

Ltac table_cases H :=
  unfold LANGUAGE_CONFIGS in H; cbn [lookup] in H;
  repeat match type of H with
         | (if String.eqb ?k ?l then _ else _) = _ =>
             let E := fresh "E" in
             destruct (String.eqb k l) eqn:E;
             [ apply String.eqb_eq in E; inversion H; subst; clear H | ]
         end;
  try discriminate.

Lemma validated_lookup req :
  validationResult req = [] -> exists config, lookup LANGUAGE_CONFIGS (language req) = Some config.
Proof.
  unfold validationResult. intros H.
  apply app_eq_nil in H as [_ H].
  destruct (existsb _ _) eqn:E; [|discriminate]. clear H.
  unfold language_keys, LANGUAGE_CONFIGS in E. cbn [map fst existsb] in E.
  unfold LANGUAGE_CONFIGS. cbn [lookup].
  repeat match goal with
         | |- context [String.eqb ?k (language req)] =>
             rewrite (String.eqb_sym k (language req));
             destruct (String.eqb (language req) k) eqn:?; [eexists; reflexivity|]
         end.
  cbn in E. discriminate.
Qed.

Lemma lookup_not_sandbox lang config :
  lookup LANGUAGE_CONFIGS lang = Some config ->
  lang <> "javascript" ->
  (String.eqb lang "javascript" && flag (sandbox config))%bool = false.
Proof.
  intros _ Hne. apply String.eqb_neq in Hne. now rewrite Hne.
Qed.

Lemma compiled_has_compiler lang config :
  lookup LANGUAGE_CONFIGS lang = Some config ->
  flag (compile config) = true ->
  lang <> "javascript" /\ exists c, compiler config = Some c.
Proof.
  intros H Hc. table_cases H; try discriminate Hc;
    (split; [discriminate | eexists; reflexivity]).
Qed.

Lemma sandbox_valid req :
  language req = "javascript" -> code req <> "" -> validationResult req = [].
Proof.
  intros Hl Hc. unfold validationResult. rewrite Hl.
  destruct (code req) as [|a s]; [congruence|]. reflexivity.
Qed.

(** ** The three ways a request is handled *)

Lemma sandbox_no_throw code input executionId w h e :
  fst (sandboxed code input executionId w h) <> Threw e.
Proof.
  unfold sandboxed. apply try_catch_safe. intros e0 w0 h0 e'.
  unfold internal_error. host_unfold. discriminate.
Qed.

Lemma external_no_throw code language config input executionId projectId filename w h e :
  fst (executeExternalProcess code language config input executionId projectId filename w h)
  <> Threw e.
Proof.
  unfold executeExternalProcess.
  unfold bind at 1. unfold now at 1. unfold bind at 1. unfold world at 1.
  apply try_catch_safe. intros e0 w0 h0 e'.
  host_unfold.
  destruct (w_rmdir_fault w0 _); host_simpl; try discriminate.
  destruct (has_dir _ _); host_simpl; try discriminate.
  destruct (w_rmdir_enoent w0); host_simpl; discriminate.
Qed.


(** A request that fails validation is answered with status 400. *)
Lemma execute_invalid req w h :
  validationResult req <> [] ->
  execute req w h =
  (Ok (mkResponse 400
         (mkBody false None None None None None None (Some (validationResult req)))), h).
Proof.
  intros Hv. unfold execute.
  destruct (validationResult req) as [|e es] eqn:E; [congruence|].
  reflexivity.
Qed.

(** A validated JavaScript request goes to the sandbox, inside the [try]
    block of the route. *)
Lemma execute_sandbox req w h :
  validationResult req = [] ->
  language req = "javascript" ->
  execute req w h =
  sandboxed (code req) (input_or_default (input req))
    (w_uuid w (uuids h)) w (started req w h).
Proof.
  intros Hv Hl. unfold execute, sandboxed, internal_error, started.
  rewrite Hv, Hl. cbn [isEmpty negb].
  rewrite lookup_javascript.
  change ((("javascript" =? "javascript")%string && flag (sandbox cfg_javascript))%bool)
    with true.
  cbv iota. cbv [try_catch bind randomUUID console emit]. reflexivity.
Qed.

(** A validated request in any other language goes to an external process. *)
Lemma execute_external req w h config :
  validationResult req = [] ->
  lookup LANGUAGE_CONFIGS (language req) = Some config ->
  language req <> "javascript" ->
  execute req w h =
  executeExternalProcess (code req) (language req) config (input_or_default (input req))
    (w_uuid w (uuids h)) (projectId req) (filename req) w (started req w h).
Proof.
  intros Hv Hl Hne. unfold execute. rewrite Hv, Hl. cbn [isEmpty negb].
  rewrite (lookup_not_sandbox _ _ Hl Hne).
  rewrite try_catch_body.
  - reflexivity.
  - intros e. host_unfold. apply external_no_throw.
Qed.

(** The three ways a request is handled. *)
Lemma execute_cases req w h :
  (validationResult req <> [] /\
   execute req w h =
   (Ok (mkResponse 400
          (mkBody false None None None None None None (Some (validationResult req)))), h))
  \/
  (validationResult req = [] /\ language req = "javascript" /\
   execute req w h =
   sandboxed (code req) (input_or_default (input req))
     (w_uuid w (uuids h)) w (started req w h))
  \/
  (exists config,
      validationResult req = [] /\
      lookup LANGUAGE_CONFIGS (language req) = Some config /\
      language req <> "javascript" /\
      execute req w h =
      executeExternalProcess (code req) (language req) config
        (input_or_default (input req)) (w_uuid w (uuids h)) (projectId req)
        (filename req) w (started req w h)).
Proof.
  destruct (validationResult req) as [|e es] eqn:Hv.
  - right. destruct (String.eqb (language req) "javascript") eqn:Hl.
    + left. apply String.eqb_eq in Hl.
      repeat split; try assumption. now apply execute_sandbox.
    + right. apply String.eqb_neq in Hl.
      destruct (validated_lookup req Hv) as [config Hc].
      exists config. repeat split; try assumption. now apply execute_external.
  - left. split; [discriminate|]. rewrite <- Hv. apply execute_invalid.
    rewrite Hv. discriminate.
Qed.

Lemma trace_started req w h h' d :
  trace h' = (trace (started req w h) ++ d)%list ->
  trace h' =
  (trace h ++ ELog "log" ("[Execution] Starting execution " ++ w_uuid w (uuids h)
                           ++ " - Language: " ++ language req) :: d)%list.
Proof.
  intros E. rewrite E. unfold started. cbn [trace].
  rewrite <- app_assoc. reflexivity.
Qed.

(** ** The sandbox path *)

Ltac sandbox_unfold := unfold sandboxed, internal_error, executeJavaScriptSandbox.

(** What the sandbox path adds to the trace. *)
Lemma sandbox_trace code input executionId w h :
  exists d,
    trace (snd (sandboxed code input executionId w h)) = (trace h ++ d)%list /\
    (d = [ENewVM EXECUTION_TIMEOUT] \/
     d = [ENewVM EXECUTION_TIMEOUT; ESetTimeout PromiseTimeout EXECUTION_TIMEOUT] \/
     exists text, d = [ENewVM EXECUTION_TIMEOUT; ELog "error" text]).
Proof.
  sandbox_unfold. host_unfold. paths.
  all: rewrite <- ?app_assoc; cbn [app]; eexists; (split; [reflexivity|]); eauto.
Qed.








Lemma vm_run_denial module g :
  propagates_denial module g ->
  forall c, exists c', vm_run g c = (Thrown (denial module), c').
Proof.
  induction 1 as [k Hmod Hk | m arguments k _ IH | module' k _ IH]; intros c;
    cbn [vm_run].
  - unfold sandbox_require. rewrite Hmod. fold (denial module). rewrite Hk.
    cbn [vm_run]. eexists; reflexivity.
  - apply IH.
  - apply IH.
Qed.

(** ** The external-process path *)

(** Every budget the external path hands out is [EXECUTION_TIMEOUT]. *)
Lemma external_budgets code language config input executionId projectId filename w h :
  exists d,
    trace (snd (executeExternalProcess code language config input executionId projectId
                  filename w h)) = (trace h ++ d)%list /\
    Forall (fun ms => ms = EXECUTION_TIMEOUT) (budgets d).
Proof.
  unfold executeExternalProcess, compileCode, runCode. host_unfold. paths.
  all: rewrite <- ?app_assoc; cbn [app]; eexists; (split; [reflexivity|]).
  all: cbn [budgets timeout]; repeat constructor.
Qed.

Lemma external_spawns code language config input executionId projectId filename w h :
  exists d n,
    trace (snd (executeExternalProcess code language config input executionId projectId
                  filename w h)) = (trace h ++ d)%list /\
    spawns d =
    firstn n
      ((if flag (compile config)
        then match compiler config with
             | Some c => [(c, compile_args config (code_file_name config filename))]
             | None => []
             end
        else [])
       ++ [(runner config, run_args config (code_file_name config filename))]).
Proof.
  unfold executeExternalProcess, compileCode, runCode. host_unfold. paths.
  all: rewrite <- ?app_assoc; cbn [app]; eexists.
  all: cbn [spawns app].
  all: first [ exists 0%nat; split; reflexivity
             | exists 1%nat; split; reflexivity
             | exists 2%nat; split; reflexivity ].
Qed.

(** The calls of [spawn] made for a request are the first ones of the list
    that its language and its file name determine. *)
Lemma spawns_prefix req w h :
  exists n,
    spawns (added h (snd (execute req w h))) =
    firstn n (invocations (language req) (filename req)).
Proof.
  destruct (execute_cases req w h) as [[_ E]|[(_ & _ & E)|(config & _ & Hl & _ & E)]];
    rewrite E; clear E.
  - exists 0%nat. cbn [snd]. rewrite (added_app h h []); [reflexivity | now rewrite app_nil_r].
  - destruct (sandbox_trace (code req) (input_or_default (input req))
                (w_uuid w (uuids h)) w (started req w h)) as (d & Ht & Hd).
    rewrite (added_app _ _ _ (trace_started _ _ _ _ _ Ht)).
    exists 0%nat. destruct Hd as [Hd|[Hd|[text Hd]]]; subst d; reflexivity.
  - destruct (external_spawns (code req) (language req) config
                (input_or_default (input req)) (w_uuid w (uuids h)) (projectId req)
                (filename req) w (started req w h)) as (d & n & Ht & Hd).
    rewrite (added_app _ _ _ (trace_started _ _ _ _ _ Ht)).
    exists n. unfold invocations. rewrite Hl. cbn [spawns]. exact Hd.
Qed.




(** The external path when the compiler exits with a code other than 0. *)
Lemma external_compile_failure
  code language config input executionId projectId filename w h c data exitCode rest :
  flag (compile config) = true ->
  compiler config = Some c ->
  w_mkdir_fault w (path_join (w_temp w) executionId) = None ->
  w_writeFile_fault w
    (path_join (path_join (w_temp w) executionId) (code_file_name config filename)) = None ->
  w_spawn w c (compile_args config (code_file_name config filename))
    (mkSpawnOptions (path_join (w_temp w) executionId) EXECUTION_TIMEOUT)
  = Spawned (data ++ Close exitCode :: rest) ->
  forallb is_data data = true ->
  is_zero exitCode = false ->
  exists h' d,
    executeExternalProcess code language config input executionId projectId filename w h
    = (Ok (mkResponse 200
             (mkBody false (Some executionId) (Some "") (Some (stderr_of data))
                (Some (w_now w (S (clock h)) - w_now w (clock h)))
                (Some language) (Some "compilation") None)), h') /\
    trace h' = (trace h ++ d)%list /\
    spawns d = [(c, compile_args config (code_file_name config filename))].
Proof.
  intros Hflag Hc Hmk Hwr Hsp Hdata Hz.
  unfold executeExternalProcess, compileCode. rewrite Hflag, Hc. host_unfold.
  rewrite Hmk. cbv beta iota. host_simpl. rewrite Hwr. cbv beta iota. host_simpl.
  rewrite Hsp. cbv beta iota.
  rewrite (listen_close _ _ _ _ Hdata), Hz. cbv beta iota. host_simpl.
  cbn [negb p_success p_error]. cbv beta iota. host_simpl.
  eexists. eexists. split; [reflexivity|].
  cbn [trace]. rewrite <- !app_assoc. cbn [app]. split; reflexivity.
Qed.


(** The run step, once the workspace is written and the compile step, if the
    language has one, has passed with [compiled] on its stdout. *)
Lemma external_run req config w h compiled events r :
  external_request req config ->
  workspace_written w h config req ->
  compile_passes w h config req compiled ->
  run_child w h config req = Spawned events ->
  stdin_delivered (input_or_default (input req)) events ->
  listen "Execution failed: " events "" "" = Some r ->
  exists response h',
    execute req w h = (Ok response, h') /\
    status response = 200 /\
    success (body response) = p_success r /\
    output (body response) = Some (Js.trim (compiled ++ p_output r)) /\
    error (body response) = Some (Js.trim (p_error r)) /\
    stage (body response) = Some "execution".
Proof.
  intros (Hv & Hl & Hne) [Hm Hwr] Hcomp Hrun Hin Hlisten.
  assert (Hstdin : Js.truthy (Some (input_or_default (input req))) = false \/
                   stdin_error events = None).
  { destruct Hin as [Hin|Hin]; [left; now rewrite Hin | now right]. }
  rewrite (execute_external req w h config Hv Hl Hne).
  unfold compile_passes, source_file, run_child, compile_child, workspace in *.
  unfold executeExternalProcess, compileCode, runCode. host_unfold. host_simpl.
  rewrite Hm. cbv beta iota. host_simpl. rewrite Hwr. cbv beta iota. host_simpl.
  destruct Hcomp as [[Hflag Hout]|(Hflag & c & data & rest & Hc & Hdata & Hsp & Hout)];
    rewrite Hflag; cbv beta iota; host_simpl.
  - rewrite Hrun. cbv beta iota. host_simpl. rewrite Hlisten.
    destruct Hstdin as [Hstdin|Hstdin]; rewrite Hstdin; cbv beta iota; host_simpl;
      try (destruct (Js.truthy _); cbv beta iota; host_simpl);
      (eexists; eexists; (split; [reflexivity|]); subst compiled; repeat split).
  - rewrite Hc. cbv beta iota. host_simpl. rewrite Hsp. cbv beta iota. host_simpl.
    rewrite (listen_close _ _ _ _ Hdata). cbn [is_zero negb p_success p_output].
    cbv beta iota. host_simpl.
    rewrite Hrun. cbv beta iota. host_simpl. rewrite Hlisten.
    destruct Hstdin as [Hstdin|Hstdin]; rewrite Hstdin; cbv beta iota; host_simpl;
      try (destruct (Js.truthy _); cbv beta iota; host_simpl);
      (eexists; eexists; (split; [reflexivity|]); subst compiled; repeat split).
Qed.




Lemma has_dir_removed tempDir ds fl :
  has_dir tempDir
    (mkFileSystem
       (filter (fun d => negb (String.eqb d tempDir) && negb (under tempDir d))%bool ds) fl)
  = false.
Proof.
  unfold has_dir. cbn [dirs].
  induction ds as [|d ds IH]; [reflexivity|]. cbn [filter].
  destruct (String.eqb d tempDir) eqn:E; cbn [negb andb]; [exact IH|].
  destruct (under tempDir d); cbn [negb]; [exact IH|].
  cbn [existsb]. rewrite String.eqb_sym, E. exact IH.
Qed.




(** ** The clean-up timer *)

Lemma timer_never_raises t w h : fst (run_timer t w h) = Ok tt.
Proof.
  destruct t as [|tempDir]; [reflexivity|].
  unfold run_timer. host_unfold. paths; reflexivity.
Qed.


Lemma timer_removes_workspace w h tempDir :
  w_rmdir_fault w tempDir = None ->
  has_dir tempDir (fs (snd (run_timer (CleanupTempDir tempDir) w h))) = false.
Proof.
  intros Hf. unfold run_timer. host_unfold. rewrite Hf. cbv beta iota. host_simpl.
  destruct (has_dir tempDir (fs h)) eqn:Hd; cbv beta iota; host_simpl.
  - apply has_dir_removed.
  - destruct (w_rmdir_enoent w); cbv beta iota; host_simpl; exact Hd.
Qed.

(** ** The admission queue *)

Module LimiterFacts.
Import Limiter.

Section Invariant.

Context {Call : Type}.
Variable limit : Z.
Hypothesis limit_nonneg : 0 <= limit.

Arguments service {Call}.
Arguments running {Call}.
Arguments pushed {Call}.
Arguments shifted {Call}.
Arguments maxConcurrentExecutions {Call}.
Arguments currentExecutions {Call}.
Arguments executionQueue {Call}.

Lemma remove_nth_length (i : nat) (l : list Call) :
  (i < List.length l)%nat ->
  List.length (remove_nth Call i l) = (List.length l - 1)%nat.
Proof.
  revert i. induction l as [|x l IH]; intros i Hi; [inversion Hi|].
  destruct i as [|i]; cbn [remove_nth List.length]; [lia|].
  cbn [List.length] in Hi. rewrite IH by lia. lia.
Qed.

Lemma invariant_create : Limiter.invariant Call limit (observe Call (create Call limit)).
Proof.
  unfold Limiter.invariant, observe, create; cbn. repeat split; try lia. congruence.
Qed.

Lemma invariant_submit o call :
  Limiter.invariant Call limit o -> Limiter.invariant Call limit (submit Call call o).
Proof.
  intros (Hmax & Hcur & Hle & Hq & Hfifo).
  unfold submit, enter.
  destruct (Z.geb_spec (currentExecutions (service o)) (maxConcurrentExecutions (service o)))
    as [Hge|Hlt]; unfold Limiter.invariant; cbn [service running pushed shifted
      maxConcurrentExecutions currentExecutions executionQueue].
  - repeat split; try assumption.
    + intros _. lia.
    + rewrite Hfifo. now rewrite app_assoc.
  - assert (Hempty : executionQueue (service o) = []).
    { destruct (executionQueue (service o)) as [|x q] eqn:E; [reflexivity|].
      exfalso. assert (currentExecutions (service o) = limit) by (apply Hq; discriminate).
      lia. }
    repeat split; try assumption.
    + rewrite length_app. cbn [List.length]. lia.
    + lia.
    + intros Hne. congruence.
Qed.

Lemma invariant_finish o i :
  Limiter.invariant Call limit o -> (i < List.length (running o))%nat ->
  Limiter.invariant Call limit (finish Call i o).
Proof.
  intros (Hmax & Hcur & Hle & Hq & Hfifo) Hi.
  pose proof (remove_nth_length i (running o) Hi) as Hlen.
  unfold finish, leave.
  cbn [maxConcurrentExecutions currentExecutions executionQueue].
  destruct (executionQueue (service o)) as [|next rest] eqn:E.
  - unfold Limiter.invariant; cbn [service running pushed shifted
      maxConcurrentExecutions currentExecutions executionQueue].
    repeat split; try assumption; try lia.
    intros Hne. congruence.
  - assert (Hfull : currentExecutions (service o) = limit) by (apply Hq; discriminate).
    unfold enter. cbn [maxConcurrentExecutions currentExecutions executionQueue].
    destruct (Z.geb_spec (currentExecutions (service o) - 1) (maxConcurrentExecutions (service o)))
      as [Hge|Hlt]; [lia|].
    unfold Limiter.invariant; cbn [service running pushed shifted
      maxConcurrentExecutions currentExecutions executionQueue].
    repeat split; try assumption.
    + rewrite length_app. cbn [List.length]. lia.
    + lia.
    + intros _. lia.
    + rewrite Hfifo, <- app_assoc. reflexivity.
Qed.

Lemma reachable_invariant o : reachable Call limit o -> Limiter.invariant Call limit o.
Proof.
  induction 1 as [|o call _ IH|o i _ IH Hi].
  - apply invariant_create.
  - now apply invariant_submit.
  - now apply invariant_finish.
Qed.

End Invariant.

(** A run of submissions stays among the reachable states. *)
Lemma submit_all_reachable {Call} limit (calls : list Call) :
  forall o, reachable Call limit o -> reachable Call limit (submit_all Call calls o).
Proof.
  induction calls as [|call calls IH]; intros o Ho; cbn [submit_all]; [exact Ho|].
  apply IH. now apply reach_submit.
Qed.

(** Once the limit is reached every further submission lengthens the queue. *)
Lemma submit_all_queue {Call} (calls : list Call) :
  forall o,
    currentExecutions Call (service Call o) >= maxConcurrentExecutions Call (service Call o) ->
    List.length (executionQueue Call (service Call (submit_all Call calls o)))
    = (List.length (executionQueue Call (service Call o)) + List.length calls)%nat.
Proof.
  induction calls as [|call calls IH]; intros o Hfull; cbn [submit_all List.length]; [lia|].
  assert (E : submit Call call o
              = mkObserved Call
                  (mkService Call (maxConcurrentExecutions Call (service Call o))
                     (currentExecutions Call (service Call o))
                     (executionQueue Call (service Call o) ++ [call]))
                  (running Call o) (pushed Call o ++ [call]) (shifted Call o)).
  { unfold submit, enter.
    destruct (Z.geb_spec (currentExecutions Call (service Call o))
                (maxConcurrentExecutions Call (service Call o))); [reflexivity | lia]. }
  rewrite E, IH; cbn [service executionQueue currentExecutions maxConcurrentExecutions].
  - rewrite length_app. cbn [List.length]. lia.
  - exact Hfull.
Qed.

End LimiterFacts.

(** * The claims of the specification *)

(** ** C1: failures become results *)




(** ** C2: the time-out budget *)

(** C2 (as stated, refuted).  The request asks for 2000 ms; the only budget
    the route hands out, to [spawn], is 30000 ms. *)
Lemma request_timeout_is_ignored :
  timeoutMs python_request = Some 2000 /\
  budgets (trace (snd (execute python_request
                         (sample_world (GValue Js.VUndefined) (fun _ => killed_child))
                         fresh))) = [30000].
Proof. split; vm_compute; reflexivity. Qed.

(** C2 (amended).  Every time-out budget the route hands out (to the VM, to
    the timer racing a promise, to each spawned process) is the constant
    [EXECUTION_TIMEOUT] = 30000 ms; a [timeoutMs] carried by the request is
    not read: the route behaves the same whatever its value.  A compile or run
    step whose child is closed without an exit code, as when the runtime kills
    it at the time-out, resolves with [success = false]. *)
Theorem budget_is_execution_timeout :
  EXECUTION_TIMEOUT = 30000 /\
  (forall req w h,
      Forall (fun ms => ms = EXECUTION_TIMEOUT)
        (budgets (added h (snd (execute req w h))))) /\
  (forall ms req w h, execute (with_timeoutMs ms req) w h = execute req w h) /\
  (forall failure data rest,
      forallb is_data data = true ->
      exists r, listen failure (data ++ Close None :: rest) "" "" = Some r /\
                p_success r = false).
Proof.
  split; [reflexivity|]. split; [|split].
  - intros req w h.
    destruct (execute_cases req w h) as [[_ E]|[(_ & _ & E)|(config & _ & _ & _ & E)]];
      rewrite E; clear E.
    + cbn [snd]. rewrite (added_app h h []); [constructor | now rewrite app_nil_r].
    + destruct (sandbox_trace (code req) (input_or_default (input req))
                  (w_uuid w (uuids h)) w (started req w h)) as (d & Ht & Hd).
      rewrite (added_app _ _ _ (trace_started _ _ _ _ _ Ht)).
      destruct Hd as [Hd|[Hd|[text Hd]]]; subst d; cbn [budgets]; repeat constructor.
    + destruct (external_budgets (code req) (language req) config
                  (input_or_default (input req)) (w_uuid w (uuids h)) (projectId req)
                  (filename req) w (started req w h)) as (d & Ht & Hd).
      rewrite (added_app _ _ _ (trace_started _ _ _ _ _ Ht)).
      cbn [budgets]. exact Hd.
  - reflexivity.
  - intros failure data rest Hdata. rewrite (listen_close _ _ _ _ Hdata).
    eexists; split; reflexivity.
Qed.

Lemma budget_is_execution_timeout_witness :
  exists r,
    listen "Execution failed: " ([StdoutData "tick"] ++ Close None :: []) "" "" = Some r /\
    p_success r = false.
Proof.
  destruct budget_is_execution_timeout as (_ & _ & _ & H).
  apply (H "Execution failed: " [StdoutData "tick"] []). reflexivity.
Defined.

(** ** C3: the admission queue *)

(** C3 (as stated, refuted).  The queue of the service created with the limit
    3 has no maximum depth: whatever bound is proposed, a reachable state
    holds more waiting calls, none of them refused. *)
Lemma queue_has_no_maximum_depth :
  ~ exists depth : nat,
      forall o : Limiter.Observed string,
        Limiter.reachable string 3 o ->
        (List.length (Limiter.executionQueue string (Limiter.service string o)) <= depth)%nat.
Proof.
  intros [depth Hbound].
  set (full := Limiter.submit_all string ["a"; "b"; "c"]
                 (Limiter.observe string (Limiter.create string 3))).
  assert (Hfull : Limiter.reachable string 3 full).
  { apply LimiterFacts.submit_all_reachable. constructor. }
  pose proof (Hbound _ (LimiterFacts.submit_all_reachable 3 (repeat "d" (S depth)) full Hfull))
    as H.
  rewrite LimiterFacts.submit_all_queue in H.
  - rewrite repeat_length in H. cbn in H. lia.
  - cbn. lia.
Qed.

(** C3 (amended).  In every state of a service created with a limit N >= 0,
    the number of calls being executed is [currentExecutions] and is at most
    N; a call is put on the queue exactly when N calls are being executed, and
    calls wait only while N are being executed; the calls taken from the queue
    are, in order, the first calls put on it (first in, first out), a finishing
    call handing its slot to the head of the queue.  A submission is never
    refused: it starts or it is queued, whatever the length of the queue. *)
Theorem admission_is_bounded_and_fifo :
  forall (Call : Type) (limit : Z) (o : Limiter.Observed Call),
    0 <= limit ->
    Limiter.reachable Call limit o ->
    let s := Limiter.service Call o in
    let executing := Z.of_nat (List.length (Limiter.running Call o)) in
    Limiter.currentExecutions Call s = executing /\
    executing <= limit /\
    (Limiter.executionQueue Call s <> [] -> executing = limit) /\
    Limiter.pushed Call o = (Limiter.shifted Call o ++ Limiter.executionQueue Call s)%list /\
    (forall call,
        (fst (Limiter.enter Call call s) = Limiter.Queued <-> executing = limit) /\
        (fst (Limiter.enter Call call s) = Limiter.Started <-> executing < limit)) /\
    (forall i next rest,
        (i < List.length (Limiter.running Call o))%nat ->
        Limiter.executionQueue Call s = next :: rest ->
        fst (Limiter.leave Call s) = Some (next, Limiter.Started) /\
        Limiter.executionQueue Call (snd (Limiter.leave Call s)) = rest /\
        Limiter.running Call (Limiter.finish Call i o)
        = (Limiter.remove_nth Call i (Limiter.running Call o) ++ [next])%list).
Proof.
  intros Call limit o Hlimit Hreach s executing.
  destruct (LimiterFacts.reachable_invariant limit Hlimit o Hreach)
    as (Hmax & Hcur & Hle & Hq & Hfifo).
  fold s in Hmax, Hcur, Hle, Hq, Hfifo. fold executing in Hcur.
  rewrite Hcur in Hle, Hq.
  split; [exact Hcur|]. split; [exact Hle|]. split; [exact Hq|]. split; [exact Hfifo|].
  split.
  - intros call. unfold Limiter.enter. rewrite Hmax, Hcur.
    destruct (Z.geb_spec executing limit); cbn [fst];
      (split; split; intros; first [lia | discriminate | reflexivity]).
  - intros i next rest Hi Hqueue.
    assert (Hfull : executing = limit) by (apply Hq; rewrite Hqueue; discriminate).
    unfold Limiter.finish, Limiter.leave, Limiter.enter.
    cbn [Limiter.executionQueue Limiter.currentExecutions Limiter.maxConcurrentExecutions].
    fold s. rewrite Hqueue, Hmax, Hcur.
    destruct (Z.geb_spec (executing - 1) limit); [lia|].
    repeat split.
Qed.

Lemma admission_is_bounded_and_fifo_witness :
  let o := Limiter.submit_all string ["a"; "b"; "c"; "d"; "e"]
             (Limiter.observe string (Limiter.create string 3)) in
  Z.of_nat (List.length (Limiter.running string o)) <= 3 /\
  Limiter.pushed string o
  = (Limiter.shifted string o
     ++ Limiter.executionQueue string (Limiter.service string o))%list.
Proof.
  intros o.
  assert (Hreach : Limiter.reachable string 3 o).
  { apply LimiterFacts.submit_all_reachable. constructor. }
  destruct (admission_is_bounded_and_fifo string 3 o ltac:(lia) Hreach)
    as (_ & Hle & _ & Hfifo & _).
  split; [exact Hle | exact Hfifo].
Defined.

(** ** C4: a failing compile step *)

(** C4 (as stated, refuted).  The compiler exits with code 1; the result has
    [success = false] and no process but the compiler is spawned, but the
    stage it reports is the string "compilation". *)
Lemma compile_failure_stage_is_compilation :
  let run := execute java_request
               (sample_world (GValue Js.VUndefined) failing_javac) fresh in
  spawns (trace (snd run)) = [("javac", ["code.java"])] /\
  exists response,
    fst run = Ok response /\
    success (body response) = false /\
    stage (body response) = Some "compilation" /\
    stage (body response) <> Some "compile".
Proof.
  cbv zeta. split; [vm_compute; reflexivity|].
  eexists. split; [vm_compute; reflexivity|].
  cbn [body success stage]. repeat split. discriminate.
Qed.

(** C4 (amended).  For every validated request whose language entry defines
    a compile step, when the workspace is written and the compiler closes with
    an exit code other than 0, the result has [success = false], stage
    "compilation", the compiler's stderr as [error] and an empty [output],
    and the only process spawned is the compiler: the run step is not
    entered. *)
Theorem compile_failure_skips_run :
  forall (req : Request) (w : World) (h : Host) (config : Config)
         (data rest : list ProcEvent) (exitCode : option Z),
    validationResult req = [] ->
    lookup LANGUAGE_CONFIGS (language req) = Some config ->
    flag (compile config) = true ->
    let tempDir := path_join (w_temp w) (w_uuid w (uuids h)) in
    let name := code_file_name config (filename req) in
    w_mkdir_fault w tempDir = None ->
    w_writeFile_fault w (path_join tempDir name) = None ->
    (forall c, compiler config = Some c ->
               w_spawn w c (compile_args config name)
                 (mkSpawnOptions tempDir EXECUTION_TIMEOUT)
               = Spawned (data ++ Close exitCode :: rest)) ->
    forallb is_data data = true ->
    is_zero exitCode = false ->
    exists response h' c,
      execute req w h = (Ok response, h') /\
      status response = 200 /\
      success (body response) = false /\
      stage (body response) = Some "compilation" /\
      error (body response) = Some (stderr_of data) /\
      output (body response) = Some "" /\
      compiler config = Some c /\
      spawns (added h h') = [(c, compile_args config name)].
Proof.
  intros req w h config data rest exitCode Hv Hl Hflag tempDir name Hmk Hwr Hsp Hdata Hz.
  destruct (compiled_has_compiler _ _ Hl Hflag) as [Hne [c Hc]].
  rewrite (execute_external req w h config Hv Hl Hne).
  destruct (external_compile_failure (code req) (language req) config
              (input_or_default (input req)) (w_uuid w (uuids h)) (projectId req)
              (filename req) w (started req w h) c data exitCode rest
              Hflag Hc Hmk Hwr (Hsp c Hc) Hdata Hz) as (h' & d & E & Ht & Hs).
  rewrite E. eexists. exists h', c.
  split; [reflexivity|]. cbn [status body success stage error output].
  repeat split; try assumption.
  rewrite (added_app _ _ _ (trace_started _ _ _ _ _ Ht)). exact Hs.
Qed.

Lemma compile_failure_skips_run_witness :
  exists response h' c,
    execute java_request (sample_world (GValue Js.VUndefined) failing_javac) fresh
    = (Ok response, h') /\
    status response = 200 /\
    success (body response) = false /\
    stage (body response) = Some "compilation" /\
    error (body response)
    = Some "code.java:1: error: reached end of file while parsing" /\
    output (body response) = Some "" /\
    compiler cfg_java = Some c /\
    spawns (added fresh h') = [(c, ["code.java"])].
Proof.
  apply (compile_failure_skips_run java_request
           (sample_world (GValue Js.VUndefined) failing_javac) fresh cfg_java
           [StderrData "code.java:1: error: reached end of file while parsing"] []
           (Some 1)); try reflexivity.
  intros c Hc. inversion Hc. reflexivity.
Defined.

(** ** C5: the capture buffers *)

(** C5 (as stated, refuted).  The request asks for at most 4 bytes of
    output; the child prints 10 and all 10 come back. *)
Lemma output_exceeds_maxOutputBytes :
  maxOutputBytes python_request = Some 4 /\
  exists response out,
    fst (execute python_request
           (sample_world (GValue Js.VUndefined) (fun _ => chatty_child)) fresh)
    = Ok response /\
    output (body response) = Some out /\
    out = "0123456789" /\
    String.length out = 10%nat.
Proof.
  split; [reflexivity|]. eexists. eexists.
  split; [vm_compute; reflexivity|]. repeat split.
Qed.

(** C5 (amended).  The stdout and stderr buffers of a compile or run step
    hold every byte the child wrote before it closed: their lengths are the
    sums of the lengths of the chunks, without any cap; a [maxOutputBytes]
    carried by the request is not read, and the route behaves the same
    whatever its value. *)
Theorem buffers_are_unbounded :
  (forall failure data exitCode rest,
      forallb is_data data = true ->
      exists r,
        listen failure (data ++ Close exitCode :: rest) "" "" = Some r /\
        p_output r = stdout_of data /\
        String.length (p_output r) = stdout_bytes data /\
        (is_zero exitCode = false ->
         p_error r = stderr_of data /\ String.length (p_error r) = stderr_bytes data)) /\
  (forall n req w h, execute (with_maxOutputBytes n req) w h = execute req w h).
Proof.
  split; [|reflexivity].
  intros failure data exitCode rest Hdata.
  rewrite (listen_close _ _ _ _ Hdata). eexists. split; [reflexivity|].
  cbn [p_output p_error]. split; [reflexivity|].
  split; [apply stdout_of_length|].
  intros Hz. rewrite Hz. split; [reflexivity | apply stderr_of_length].
Qed.

Lemma buffers_are_unbounded_witness :
  exists r,
    listen "Execution failed: "
      ([StdoutData "0123456789"; StderrData "oops"] ++ Close (Some 1) :: []) "" "" = Some r /\
    p_output r = "0123456789" /\
    String.length (p_output r) = 10%nat /\
    (is_zero (Some 1) = false ->
     p_error r = "oops" /\ String.length (p_error r) = 4%nat).
Proof.
  destruct buffers_are_unbounded as [H _].
  apply (H "Execution failed: " [StdoutData "0123456789"; StderrData "oops"] (Some 1) []).
  reflexivity.
Defined.

(** ** C6: modules outside the allowed set *)

(** C6 (as stated, refuted).  The script asks for [child_process], is
    refused, catches the error and goes on: the result has [success = true]. *)
Lemma caught_denial_succeeds :
  sandbox_require "child_process" = RequireThrew (denial "child_process") /\
  exists response,
    fst (execute (js_request "try { require('child_process') } catch (e) { } ; 1")
           (sample_world catching_script any_child) fresh) = Ok response /\
    success (body response) = true /\
    error (body response) = Some "".
Proof.
  split; [reflexivity|]. eexists. split; [vm_compute; reflexivity|].
  split; reflexivity.
Qed.

(** C6 (amended).  In the sandbox, [require] of a module outside the allowed
    set (util, crypto, path) throws the error "Module '<name>' is not
    allowed in sandbox" into the script and never hands out a module; when
    the script lets that error propagate, the request is answered (no
    exception reaches the host) with [success = false] and that message as
    [error]. *)
Theorem denied_module_fails :
  (forall module,
      existsb (String.eqb module) allowedModules = false ->
      sandbox_require module = RequireThrew (denial module)) /\
  (forall module loaded,
      sandbox_require module = Loaded loaded ->
      loaded = module /\ In module ["util"; "crypto"; "path"]) /\
  (forall (req : Request) (w : World) (h : Host) (module : string),
      language req = "javascript" ->
      code req <> "" ->
      propagates_denial module (w_vm_run w (code req) (input_or_default (input req))) ->
      exists response h',
        execute req w h = (Ok response, h') /\
        status response = 200 /\
        success (body response) = false /\
        error (body response) = Some (denial module)).
Proof.
  split; [|split].
  - intros module Hm. unfold sandbox_require. now rewrite Hm.
  - intros module loaded. unfold sandbox_require.
    destruct (existsb _ _) eqn:E; [|discriminate].
    intros H; inversion H; subst. split; [reflexivity|].
    unfold allowedModules in E. cbn [existsb] in E.
    repeat (apply orb_true_iff in E as [E|E]); try discriminate;
      apply String.eqb_eq in E; subst; cbn; auto.
  - intros req w h module Hl Hc Hp.
    rewrite (execute_sandbox req w h (sandbox_valid req Hl Hc) Hl).
    sandbox_unfold. host_unfold.
    destruct (vm_run_denial _ _ Hp (mkCapture "" "")) as [c' E]. rewrite E.
    cbv beta iota. eexists. eexists. split; [reflexivity|].
    cbn [status body success error]. repeat split.
Qed.

Lemma denied_module_fails_witness :
  exists response h',
    execute (js_request "require('fs').readFileSync('/etc/passwd')")
      (sample_world fs_script any_child) fresh = (Ok response, h') /\
    status response = 200 /\
    success (body response) = false /\
    error (body response) = Some "Module 'fs' is not allowed in sandbox".
Proof.
  destruct denied_module_fails as (_ & _ & H).
  apply (H (js_request "require('fs').readFileSync('/etc/passwd')")
           (sample_world fs_script any_child) fresh "fs").
  - reflexivity.
  - discriminate.
  - apply pd_here; reflexivity.
Defined.

(** ** C7: the argument vector *)

(** C7.  The calls of [spawn] made for a request are drawn, in order, from a
    list fixed by the language entry and the file name; hence for two
    requests in the same language and with the same file name, whatever their
    source code, their input and the behaviour of the environment, the k-th
    command and argument vector handed to [spawn] are identical.  The vector
    is a list of separate arguments, and the options of [spawn] carry [cwd]
    and [timeout] only. *)
Theorem spawn_arguments_ignore_source :
  forall (r1 r2 : Request) (w1 w2 : World) (h1 h2 : Host),
    language r1 = language r2 ->
    filename r1 = filename r2 ->
    forall k a b,
      nth_error (spawns (added h1 (snd (execute r1 w1 h1)))) k = Some a ->
      nth_error (spawns (added h2 (snd (execute r2 w2 h2)))) k = Some b ->
      a = b /\ nth_error (invocations (language r1) (filename r1)) k = Some a.
Proof.
  intros r1 r2 w1 w2 h1 h2 Hl Hf k a b Ha Hb.
  destruct (spawns_prefix r1 w1 h1) as [n1 E1].
  destruct (spawns_prefix r2 w2 h2) as [n2 E2].
  rewrite E1 in Ha. rewrite E2, <- Hl, <- Hf in Hb.
  apply nth_error_firstn_some in Ha. apply nth_error_firstn_some in Hb.
  split; [congruence | exact Ha].
Qed.

Lemma spawn_arguments_ignore_source_witness :
  ("./program", @nil string) = ("./program", @nil string) /\
  nth_error (invocations "cpp" (Some "main.cpp")) 1 = Some ("./program", @nil string).
Proof.
  apply (spawn_arguments_ignore_source
           (cpp_request "int main(){return 0;}" "")
           (cpp_request "int main(){return 1/0;} // ; rm -rf /" "1 2 3")
           (sample_world (GValue Js.VUndefined) any_child)
           (sample_world (GValue Js.VUndefined) any_child)
           fresh fresh eq_refl eq_refl 1%nat ("./program", []) ("./program", [])).
  - reflexivity.
  - reflexivity.
Defined.

(** ** C8: console.log(2+2) *)

(** C8 (as stated, refuted).  The captured output is the digit 4 followed by
    the two characters backslash and n, not by a line feed. *)
Lemma sum_output_has_no_newline :
  exists response,
    fst (execute sum_request (sample_world sum_script any_child) fresh) = Ok response /\
    success (body response) = true /\
    output (body response) = Some ("4" ++ Js.backslash_n) /\
    output (body response) <> Some ("4" ++ Js.LF).
Proof.
  eexists. split; [vm_compute; reflexivity|].
  cbn [body success output]. repeat split. discriminate.
Qed.

(** C8 (amended).  A request with language "javascript" and code
    "console.log(2+2)", whose script calls [console.log] with the number 4
    and completes, produces a result with [success = true] whose [output]
    begins with "4" and, being trimmed, does not end with a line feed. *)
Theorem sum_request_succeeds :
  forall (req : Request) (w : World) (h : Host),
    language req = "javascript" ->
    code req = "console.log(2+2)" ->
    w_vm_run w (code req) (input_or_default (input req)) = sum_script ->
    exists response h' out,
      execute req w h = (Ok response, h') /\
      status response = 200 /\
      success (body response) = true /\
      output (body response) = Some out /\
      Js.startsWith "4" out = true /\
      Js.trim out = out /\
      Js.last_char out <> Js.last_char Js.LF.
Proof.
  intros req w h Hl Hc Hvm.
  assert (Hv : validationResult req = []).
  { apply sandbox_valid; [assumption | rewrite Hc; discriminate]. }
  rewrite (execute_sandbox req w h Hv Hl).
  sandbox_unfold. host_unfold. rewrite Hvm.
  unfold sum_script. cbn [vm_run sandbox_console]. cbv beta iota.
  cbn [Js.is_defined c_output c_errorOutput].
  eexists. eexists. eexists. split; [reflexivity|].
  cbn [status body success output].
  repeat split. discriminate.
Qed.

Lemma sum_request_succeeds_witness :
  exists response h' out,
    execute sum_request (sample_world sum_script any_child) fresh = (Ok response, h') /\
    status response = 200 /\
    success (body response) = true /\
    output (body response) = Some out /\
    Js.startsWith "4" out = true /\
    Js.trim out = out /\
    Js.last_char out <> Js.last_char Js.LF.
Proof.
  apply (sum_request_succeeds sum_request (sample_world sum_script any_child) fresh);
    reflexivity.
Defined.

(** ** C9: destruction of the workspace *)




(** ** C10: stderr of a step that exits with code 0 *)

(** C10.  For every compile or run step whose child process writes to its
    stdout and stderr and then closes (no [error] event, of the child or of
    its stdin, comes before), the [error] field that [compileCode] /
    [runCode] resolves with is the empty string when the exit code is 0,
    whatever the process wrote to stderr, and is the captured stderr when the
    exit code is not 0; and when the run step exits with code 0 in this way
    the [error] of the answer to the request is the empty string. *)
Theorem exit_zero_hides_stderr :
  forall (w : World) (h : Host) (tempDir codeFileName : string) (config : Config)
         (input : string) (data rest : list ProcEvent) (exitCode : option Z),
    forallb is_data data = true ->
    (forall c,
        compiler config = Some c ->
        w_spawn w c (compile_args config codeFileName)
          (mkSpawnOptions tempDir EXECUTION_TIMEOUT)
        = Spawned (data ++ Close exitCode :: rest) ->
        exists r,
          fst (compileCode tempDir codeFileName config w h) = Ok r /\
          p_success r = is_zero exitCode /\
          p_error r = (if is_zero exitCode then "" else stderr_of data))
    /\
    (w_spawn w (runner config) (run_args config codeFileName)
       (mkSpawnOptions tempDir EXECUTION_TIMEOUT)
     = Spawned (data ++ Close exitCode :: rest) ->
     exists r,
       fst (runCode tempDir codeFileName config input w h) = Ok r /\
       p_success r = is_zero exitCode /\
       p_error r = (if is_zero exitCode then "" else stderr_of data))
    /\
    (forall req compiled,
        external_request req config ->
        workspace_written w h config req ->
        compile_passes w h config req compiled ->
        run_child w h config req = Spawned (data ++ Close (Some 0) :: rest) ->
        exists response h',
          execute req w h = (Ok response, h') /\
          success (body response) = true /\
          error (body response) = Some "").
Proof.
  intros w h tempDir codeFileName config input data rest exitCode Hdata.
  pose proof (listen_close "Compilation failed: " data exitCode rest Hdata) as Hc.
  pose proof (listen_close "Execution failed: " data exitCode rest Hdata) as Hr.
  split; [|split].
  - intros c Hcomp Hspawn.
    unfold compileCode. rewrite Hcomp.
    cbv [bind console emit spawn world settle ret].
    rewrite Hspawn, Hc. cbn [fst]. eexists; repeat split.
  - intros Hspawn.
    unfold runCode. cbv [bind console emit spawn world settle ret crash].
    rewrite Hspawn, Hr, (stdin_error_data _ _ Hdata). cbn [stdin_error].
    destruct (Js.truthy (Some input)); cbn [fst]; eexists; repeat split.
  - intros req compiled He Hw Hp Hrun.
    assert (Hin : forall text, stdin_delivered text (data ++ Close (Some 0) :: rest)).
    { intros text. right. now rewrite (stdin_error_data _ _ Hdata). }
    destruct (external_run req config w h compiled _ _ He Hw Hp Hrun (Hin _)
                (listen_close "Execution failed: " data (Some 0) rest Hdata))
      as (response & h' & E & _ & Hs & _ & Herr & _).
    exists response, h'. repeat split; assumption.
Qed.

Lemma exit_zero_hides_stderr_witness :
  exists r,
    fst (runCode "/srv/temp/id-0" "code.py" cfg_python ""
           (sample_world (GValue Js.VUndefined) (fun _ => noisy_child)) fresh) = Ok r /\
    p_success r = true /\ p_error r = "".
Proof.
  destruct (exit_zero_hides_stderr
              (sample_world (GValue Js.VUndefined) (fun _ => noisy_child)) fresh
              "/srv/temp/id-0" "code.py" cfg_python ""
              [StderrData "warning: unused"; StdoutData "hi"] [] (Some 0)
              eq_refl) as (_ & Hrun & _).
  apply Hrun. reflexivity.
Defined.

(** * Further properties of the execution route *)

(** ** The status of an answer *)

Lemma validation_passes_iff req :
  validationResult req = [] <-> code req <> "" /\ In (language req) language_keys.
Proof.
  unfold validationResult. split.
  - intros H. apply app_eq_nil in H as [Hc Hl]. split.
    + destruct (code req); [discriminate Hc | discriminate].
    + destruct (existsb _ _) eqn:E; [|discriminate].
      apply existsb_exists in E as (k & Hin & Hk).
      apply String.eqb_eq in Hk. now subst.
  - intros [Hc Hl].
    destruct (code req) as [|a s]; [congruence|]. cbn [String.length Nat.eqb app].
    assert (E : existsb (String.eqb (language req)) language_keys = true).
    { apply existsb_exists. exists (language req). split; [exact Hl|]. apply String.eqb_refl. }
    now rewrite E.
Qed.





(** ** Trimmed fields *)

Lemma trimEnd_idempotent s : Js.trimEnd (Js.trimEnd s) = Js.trimEnd s.
Proof.
  induction s as [|c s IH]; [reflexivity|]. cbn [Js.trimEnd].
  destruct (Js.trimEnd s) as [|d t] eqn:E.
  - destruct (Js.is_space c) eqn:Hc; [reflexivity|].
    cbn [Js.trimEnd]. now rewrite Hc.
  - change (Js.trimEnd (String c (String d t))) with
      (match Js.trimEnd (String d t) with
       | EmptyString => if Js.is_space c then EmptyString else String c EmptyString
       | r => String c r
       end).
    now rewrite IH.
Qed.

Lemma trimStart_head s :
  match Js.trimStart s with
  | String c _ => Js.is_space c = false
  | EmptyString => True
  end.
Proof.
  induction s as [|c s IH]; [exact I|]. cbn [Js.trimStart].
  destruct (Js.is_space c) eqn:Hc; [exact IH | exact Hc].
Qed.

Lemma trimStart_of_trimEnd t :
  match t with
  | String c _ => Js.is_space c = false
  | EmptyString => True
  end ->
  Js.trimStart (Js.trimEnd t) = Js.trimEnd t.
Proof.
  destruct t as [|c t]; [reflexivity|]. intros Hc. cbn [Js.trimEnd].
  destruct (Js.trimEnd t) as [|d r]; [rewrite Hc|]; cbn [Js.trimStart]; now rewrite Hc.
Qed.

(** [trim] is idempotent. *)
Lemma trim_idempotent s : Js.trim (Js.trim s) = Js.trim s.
Proof.
  unfold Js.trim.
  rewrite (trimStart_of_trimEnd _ (trimStart_head s)).
  apply trimEnd_idempotent.
Qed.

Lemma sandbox_trimmed code input executionId w h response h' :
  sandboxed code input executionId w h = (Ok response, h') ->
  trimmed_answer response.
Proof.
  sandbox_unfold. unfold trimmed_answer. host_unfold. paths.
  all: intros E; inversion E; subst; clear E;
    cbn [body output error success stage].
  all: split; [intros out H; inversion H; apply trim_idempotent|].
  all: intros [H|H]; try discriminate H.
  all: intros e He; inversion He; apply trim_idempotent.
Qed.

Lemma external_trimmed code language config input executionId projectId filename w h
  response h' :
  executeExternalProcess code language config input executionId projectId filename w h
  = (Ok response, h') ->
  trimmed_answer response.
Proof.
  unfold executeExternalProcess, compileCode, runCode, trimmed_answer. host_unfold. paths.
  all: intros E; inversion E; subst; clear E;
    cbn [body output error success stage].
  all: split;
    [intros out H; inversion H; first [apply trim_idempotent | reflexivity]|].
  all: intros [H|H]; try discriminate H.
  all: intros e He; inversion He; apply trim_idempotent.
Qed.

(** X2.  The [output] of every answer is trimmed: trimming it again changes
    nothing.  The same holds of [error] in every answer with
    [success = true] and in every answer of the run step (stage "execution");
    the message of a caught exception and the stderr of a failed compile step
    are passed on as they are. *)
Theorem answers_are_trimmed :
  forall req w h response h',
    execute req w h = (Ok response, h') -> trimmed_answer response.
Proof.
  intros req w h response h' E.
  destruct (execute_cases req w h) as [[_ E1]|[(_ & _ & E1)|(config & _ & _ & _ & E1)]];
    rewrite E1 in E.
  - inversion E. unfold trimmed_answer. cbn [body output error success stage].
    split; [discriminate|]. intros [H|H]; discriminate H.
  - eapply sandbox_trimmed; exact E.
  - eapply external_trimmed; exact E.
Qed.

Lemma answers_are_trimmed_witness :
  exists response h',
    execute python_request
      (sample_world (GValue Js.VUndefined)
         (fun _ => Spawned [StdoutData "  hi  "; StderrData " warn "; Close (Some 1)]))
      fresh = (Ok response, h') /\
    output (body response) = Some "hi" /\
    error (body response) = Some "warn" /\
    trimmed_answer response.
Proof.
  eexists. eexists. split; [vm_compute; reflexivity|].
  split; [reflexivity|]. split; [reflexivity|].
  eapply (answers_are_trimmed python_request
            (sample_world (GValue Js.VUndefined)
               (fun _ => Spawned [StdoutData "  hi  "; StderrData " warn "; Close (Some 1)]))
            fresh).
  vm_compute. reflexivity.
Defined.

(** ** Who touches the file system *)

Lemma sandbox_keeps_fs code input executionId w h :
  fs (snd (sandboxed code input executionId w h)) = fs h.
Proof.
  sandbox_unfold. host_unfold. paths; reflexivity.
Qed.

Lemma external_starts_with_mkdir code language config input executionId projectId
  filename w h :
  exists d,
    trace (snd (executeExternalProcess code language config input executionId projectId
                  filename w h))
    = (trace h ++ EMkdir (path_join (w_temp w) executionId) :: d)%list.
Proof.
  unfold executeExternalProcess, compileCode, runCode. host_unfold. paths.
  all: rewrite <- ?app_assoc; cbn [app]; eexists; reflexivity.
Qed.

(** X3.  A request that fails validation, and a request whose language is
    the string "javascript", leave the file system as it is and make no call
    into the file system or the process table, whatever the script does; a
    validated request whose language is another string begins, after the log
    line, by creating its workspace. *)
Theorem only_external_requests_touch_the_system :
  forall req w h,
    let h' := snd (execute req w h) in
    (validationResult req <> [] \/ language req = "javascript" ->
     fs h' = fs h /\ existsb touches_system (added h h') = false) /\
    (validationResult req = [] -> language req <> "javascript" ->
     exists log d,
       added h h' = ELog "log" log :: EMkdir (workspace w h) :: d).
Proof.
  intros req w h h'. subst h'.
  destruct (execute_cases req w h) as [[Hv E]|[(Hv & Hl & E)|(config & Hv & _ & Hne & E)]];
    rewrite E; clear E.
  - cbn [snd]. split; [|intros; contradiction].
    intros _. split; [reflexivity|].
    rewrite (added_app h h []); [reflexivity | now rewrite app_nil_r].
  - split; [|intros; contradiction].
    intros _. rewrite sandbox_keeps_fs. split; [reflexivity|].
    destruct (sandbox_trace (code req) (input_or_default (input req))
                (w_uuid w (uuids h)) w (started req w h)) as (d & Ht & Hd).
    rewrite (added_app _ _ _ (trace_started _ _ _ _ _ Ht)).
    destruct Hd as [Hd|[Hd|[text Hd]]]; subst d; reflexivity.
  - split; [intros [H|H]; contradiction|].
    intros _ _.
    destruct (external_starts_with_mkdir (code req) (language req) config
                (input_or_default (input req)) (w_uuid w (uuids h)) (projectId req)
                (filename req) w (started req w h)) as (d & Ht).
    rewrite (added_app _ _ _ (trace_started _ _ _ _ _ Ht)).
    eexists. exists d. reflexivity.
Qed.

Lemma only_external_requests_touch_the_system_witness :
  fs (snd (execute sum_request (sample_world sum_script any_child) busy_host)) = fs busy_host /\
  existsb touches_system
    (added busy_host (snd (execute sum_request (sample_world sum_script any_child) busy_host)))
  = false.
Proof.
  apply (only_external_requests_touch_the_system sum_request
           (sample_world sum_script any_child) busy_host).
  right. reflexivity.
Defined.

(** ** The standard input of the child *)




(** ** The workspace on disk *)

Lemma prefix_app (a b c : string) : String.prefix (a ++ b) (a ++ c) = String.prefix b c.
Proof.
  induction a as [|x a IH]; [reflexivity|]. cbn [append String.prefix].
  destruct (ascii_dec x x) as [_|N]; [exact IH | contradiction].
Qed.

Lemma under_join (d name : string) : under d (path_join d name) = true.
Proof.
  unfold under, path_join. rewrite prefix_app. cbn [append String.prefix].
  destruct (ascii_dec "/" "/") as [_|N]; [now destruct name | contradiction].
Qed.

Lemma read_file_last path content fl :
  read_file path (fl ++ [(path, content)]) = Some content.
Proof.
  induction fl as [|[p c] fl IH]; cbn [app read_file].
  - now rewrite String.eqb_refl.
  - now rewrite IH.
Qed.

Lemma has_dir_written ws path content f : has_dir ws (written ws path content f) = true.
Proof.
  unfold written, has_dir. destruct (existsb (String.eqb ws) (dirs f)) eqn:E; cbn [dirs].
  - exact E.
  - rewrite existsb_app. cbn [existsb]. rewrite String.eqb_refl.
    now rewrite orb_true_r.
Qed.

(** The file system when the external path answers after its compile or run
    step: the workspace is created and the source written, nothing else. *)
Lemma external_writes code language config input executionId projectId filename w h
  response h' :
  executeExternalProcess code language config input executionId projectId filename w h
  = (Ok response, h') ->
  stage (body response) <> None ->
  fs h' = written (path_join (w_temp w) executionId)
            (path_join (path_join (w_temp w) executionId) (code_file_name config filename))
            code (fs h).
Proof.
  unfold executeExternalProcess, compileCode, runCode, written. host_unfold. paths.
  all: intros E; inversion E; subst; clear E; cbn [body stage fs].
  all: intros Hs; try (exfalso; apply Hs; reflexivity).
  all: cbn [dirs files]; reflexivity.
Qed.

Lemma external_compile_leftovers code language config input executionId projectId
  filename w h response h' :
  executeExternalProcess code language config input executionId projectId filename w h
  = (Ok response, h') ->
  stage (body response) = Some "compilation" ->
  exists d,
    trace h' = (trace h ++ d)%list /\ removals d = [] /\ timers d = [].
Proof.
  unfold executeExternalProcess, compileCode, runCode. host_unfold. paths.
  all: intros E; inversion E; subst; clear E; cbn [body stage trace].
  all: intros Hs; try discriminate Hs.
  all: rewrite <- ?app_assoc; cbn [app]; eexists; (split; [reflexivity|]).
  all: split; reflexivity.
Qed.

(** The trace of the external path when it answers after its compile or
    run step. *)
Lemma external_fs_calls code language config input executionId projectId filename w h
  response h' :
  executeExternalProcess code language config input executionId projectId filename w h
  = (Ok response, h') ->
  stage (body response) <> None ->
  exists d,
    trace h' =
    (trace h ++ EMkdir (path_join (w_temp w) executionId)
       :: EWriteFile (path_join (path_join (w_temp w) executionId)
                        (code_file_name config filename)) code :: d)%list /\
    filter is_fs_call d = [].
Proof.
  unfold executeExternalProcess, compileCode, runCode. host_unfold. paths.
  all: intros E; inversion E; subst; clear E; cbn [body stage trace].
  all: intros Hs; try (exfalso; apply Hs; reflexivity).
  all: rewrite <- ?app_assoc; cbn [app]; eexists; (split; [reflexivity|]).
  all: reflexivity.
Qed.

(** X5.  When the external path answers after the compile or the run step,
    the calls it has made into the file system are two, made before any
    process is spawned: [fs.mkdir] of the workspace of the request, then
    [fs.writeFile] of the code of the request, character for character, to the
    source file, which for a [filename] that is absent or plain lies in that
    workspace.  The handler writes nothing else and removes nothing. *)
Theorem source_is_written_verbatim :
  forall req config w h response h',
    external_request req config ->
    plain_filename (filename req) = true ->
    execute req w h = (Ok response, h') ->
    stage (body response) <> None ->
    under (workspace w h) (source_file w h config req) = true /\
    exists log d,
      added h h'
      = ELog "log" log :: EMkdir (workspace w h)
          :: EWriteFile (source_file w h config req) (code req) :: d /\
      filter is_fs_call d = [].
Proof.
  intros req config w h response h' (Hv & Hl & Hne) _ E Hs.
  split; [apply under_join|].
  rewrite (execute_external req w h config Hv Hl Hne) in E.
  destruct (external_fs_calls _ _ _ _ _ _ _ _ _ _ _ E Hs) as (d & Ht & Hd).
  rewrite (added_app _ _ _ (trace_started _ _ _ _ _ Ht)).
  eexists. exists d. split; [reflexivity | exact Hd].
Qed.

Lemma source_is_written_verbatim_witness :
  exists response h',
    execute python_request (sample_world (GValue Js.VUndefined) (fun _ => chatty_child))
      busy_host = (Ok response, h') /\
    under "/srv/temp/id-0" "/srv/temp/id-0/code.py" = true /\
    exists log d,
      added busy_host h'
      = ELog "log" log :: EMkdir "/srv/temp/id-0"
          :: EWriteFile "/srv/temp/id-0/code.py" "while True: pass" :: d /\
      filter is_fs_call d = [].
Proof.
  eexists. eexists. split; [vm_compute; reflexivity|].
  eapply (source_is_written_verbatim python_request cfg_python
            (sample_world (GValue Js.VUndefined) (fun _ => chatty_child)) busy_host).
  - repeat split. discriminate.
  - reflexivity.
  - vm_compute. reflexivity.
  - discriminate.
Defined.

Lemma external_run_timer code language config input executionId projectId filename w h
  response h' :
  executeExternalProcess code language config input executionId projectId filename w h
  = (Ok response, h') ->
  stage (body response) = Some "execution" ->
  exists d,
    trace h' = (trace h ++ d)%list /\
    timers d = [(CleanupTempDir (path_join (w_temp w) executionId), 5000)] /\
    removals d = [].
Proof.
  unfold executeExternalProcess, compileCode, runCode. host_unfold. paths.
  all: intros E; inversion E; subst; clear E; cbn [body stage trace].
  all: intros Hs; try discriminate Hs.
  all: rewrite <- ?app_assoc; cbn [app]; eexists; (split; [reflexivity|]).
  all: split; reflexivity.
Qed.

(** What the function of the clean-up timer does, on any host. *)
Lemma timer_calls tempDir w h :
  exists d,
    trace (snd (run_timer (CleanupTempDir tempDir) w h)) = (trace h ++ d)%list /\
    filter is_fs_call d = [ERmdir tempDir].
Proof.
  unfold run_timer. host_unfold. paths.
  all: rewrite <- ?app_assoc; cbn [app]; eexists; (split; [reflexivity|]); reflexivity.
Qed.

(** X6.  A request whose run step resolves sets exactly one timer, for its own
    workspace and 5000 ms, and removes nothing itself.  Whatever the state of
    the host when that timer fires, its function does not raise and makes
    exactly one call into the file system, [fs.rmdir] of that workspace;
    when that call does not fail the workspace is gone afterwards. *)
Theorem cleanup_is_left_to_one_timer :
  forall req config w h response h',
    external_request req config ->
    execute req w h = (Ok response, h') ->
    stage (body response) = Some "execution" ->
    timers (added h h') = [(CleanupTempDir (workspace w h), 5000)] /\
    removals (added h h') = [] /\
    forall later,
      let fired := run_timer (CleanupTempDir (workspace w h)) w later in
      fst fired = Ok tt /\
      filter is_fs_call (added later (snd fired)) = [ERmdir (workspace w h)] /\
      (w_rmdir_fault w (workspace w h) = None ->
       has_dir (workspace w h) (fs (snd fired)) = false).
Proof.
  intros req config w h response h' (Hv & Hl & Hne) E Hs.
  rewrite (execute_external req w h config Hv Hl Hne) in E.
  destruct (external_run_timer _ _ _ _ _ _ _ _ _ _ _ E Hs) as (d & Ht & Htimers & Hrem).
  rewrite (added_app _ _ _ (trace_started _ _ _ _ _ Ht)).
  cbn [timers removals]. split; [exact Htimers|]. split; [exact Hrem|].
  intros later. cbv zeta. split; [apply timer_never_raises|]. split.
  - destruct (timer_calls (workspace w h) w later) as (d' & Ht' & Hd').
    now rewrite (added_app _ _ _ Ht').
  - apply timer_removes_workspace.
Qed.

Lemma cleanup_is_left_to_one_timer_witness :
  exists response h',
    execute python_request (sample_world (GValue Js.VUndefined) (fun _ => chatty_child))
      busy_host = (Ok response, h') /\
    timers (added busy_host h') = [(CleanupTempDir "/srv/temp/id-0", 5000)] /\
    has_dir "/srv/temp/id-0"
      (fs (snd (run_timer (CleanupTempDir "/srv/temp/id-0")
                  (sample_world (GValue Js.VUndefined) (fun _ => chatty_child)) h')))
    = false.
Proof.
  eexists. eexists. split; [vm_compute; reflexivity|].
  destruct (cleanup_is_left_to_one_timer python_request cfg_python
              (sample_world (GValue Js.VUndefined) (fun _ => chatty_child)) busy_host
              _ _ ltac:(repeat split; discriminate)
              ltac:(vm_compute; reflexivity) eq_refl) as (Ht & _ & Hfire).
  split; [exact Ht|].
  eapply (proj2 (proj2 (Hfire _))). reflexivity.
Defined.

(** X7.  When the compile step does not succeed, the handler answers without
    removing the workspace and without setting a timer: the workspace and the
    source file are still on disk when the answer is sent, and nothing the
    handler has started will remove them. *)
Theorem failed_compile_leaves_the_workspace :
  forall req config w h response h',
    external_request req config ->
    execute req w h = (Ok response, h') ->
    stage (body response) = Some "compilation" ->
    removals (added h h') = [] /\
    timers (added h h') = [] /\
    has_dir (workspace w h) (fs h') = true /\
    read_file (source_file w h config req) (files (fs h')) = Some (code req).
Proof.
  intros req config w h response h' (Hv & Hl & Hne) E Hs.
  rewrite (execute_external req w h config Hv Hl Hne) in E.
  destruct (external_compile_leftovers _ _ _ _ _ _ _ _ _ _ _ E Hs) as (d & Ht & Hrem & Htim).
  rewrite (added_app _ _ _ (trace_started _ _ _ _ _ Ht)).
  cbn [timers removals]. split; [exact Hrem|]. split; [exact Htim|].
  assert (Hfs : fs h' = written (workspace w h) (source_file w h config req) (code req) (fs h)).
  { apply (external_writes _ _ _ _ _ _ _ _ _ _ _ E). rewrite Hs. discriminate. }
  rewrite Hfs. split; [apply has_dir_written|].
  unfold written. cbn [files]. apply read_file_last.
Qed.

Lemma failed_compile_leaves_the_workspace_witness :
  exists response h',
    execute java_request (sample_world (GValue Js.VUndefined) failing_javac) fresh
    = (Ok response, h') /\
    removals (added fresh h') = [] /\
    timers (added fresh h') = [] /\
    has_dir "/srv/temp/id-0" (fs h') = true /\
    read_file "/srv/temp/id-0/code.java" (files (fs h')) = Some "class A {".
Proof.
  eexists. eexists. split; [vm_compute; reflexivity|].
  eapply (failed_compile_leaves_the_workspace java_request cfg_java
            (sample_world (GValue Js.VUndefined) failing_javac) fresh).
  - repeat split. discriminate.
  - vm_compute. reflexivity.
  - reflexivity.
Defined.

(** ** The paths the handler names *)

Lemma prefix_length a : forall b,
  String.prefix a b = true -> (String.length a <= String.length b)%nat.
Proof.
  induction a as [|x a IH]; intros [|y b]; cbn [String.prefix String.length];
    try discriminate; try lia.
  destruct (ascii_dec x y); [|discriminate]. intros H. apply IH in H. lia.
Qed.

Lemma prefix_same_length a : forall b x y,
  String.length a = String.length b ->
  String.prefix (a ++ x) (b ++ y) = true -> a = b.
Proof.
  induction a as [|c a IH]; intros [|d b] x y; cbn [String.length append String.prefix];
    try discriminate; [reflexivity|].
  intros L. destruct (ascii_dec c d) as [->|]; [|discriminate].
  intros H. f_equal. apply (IH b x y); [congruence | exact H].
Qed.

(** Workspaces named by different ids of the same length lie apart. *)
Lemma other_workspace temp id1 id2 :
  id2 <> id1 -> String.length id2 = String.length id1 ->
  path_join temp id1 <> path_join temp id2 /\
  under (path_join temp id2) (path_join temp id1) = false /\
  (forall name, under (path_join temp id2) (path_join (path_join temp id1) name) = false) /\
  (forall name, path_join (path_join temp id1) name <> path_join temp id2).
Proof.
  intros N L. unfold under, path_join.
  assert (Slash : forall a b, String.prefix ("/" ++ a) ("/" ++ b) = String.prefix a b).
  { intros a b. apply (prefix_app "/"). }
  split; [|split; [|split]]; cycle 3.
  { intros name E. apply (f_equal String.length) in E.
    repeat (rewrite ?length_append in E; cbn [String.length append] in E). lia. }
  - intros E. apply N.
    assert (P : String.prefix ((temp ++ "/" ++ id2) ++ "") ((temp ++ "/" ++ id1) ++ "") = true).
    { rewrite E. rewrite !append_empty_r. clear. induction (temp ++ "/" ++ id2) as [|x s IH].
      - reflexivity.
      - cbn [String.prefix]. destruct (ascii_dec x x); [exact IH | contradiction]. }
    rewrite !append_assoc, prefix_app, Slash in P.
    apply prefix_same_length in P; [exact P | exact L].
  - destruct (String.prefix ((temp ++ "/" ++ id2) ++ "/") (temp ++ "/" ++ id1)) eqn:P;
      [|reflexivity].
    rewrite !append_assoc, prefix_app, Slash in P.
    apply prefix_length in P. rewrite length_append in P. cbn [String.length] in P. lia.
  - intros name.
    destruct (String.prefix ((temp ++ "/" ++ id2) ++ "/")
                ((temp ++ "/" ++ id1) ++ "/" ++ name)) eqn:P; [|reflexivity].
    rewrite !append_assoc, prefix_app, Slash in P.
    apply prefix_same_length in P; [contradiction | exact L].
Qed.

(** Every call of the external path into the file system names its workspace
    or the source file in it. *)
Lemma external_paths code language config input executionId projectId filename w h :
  exists d,
    trace (snd (executeExternalProcess code language config input executionId projectId
                  filename w h)) = (trace h ++ d)%list /\
    forall e, In e d -> is_fs_call e = true ->
      fs_path e = path_join (w_temp w) executionId \/
      fs_path e = path_join (path_join (w_temp w) executionId)
                    (code_file_name config filename).
Proof.
  unfold executeExternalProcess, compileCode, runCode. host_unfold. paths.
  all: rewrite <- ?app_assoc; cbn [app]; eexists; (split; [reflexivity|]).
  all: cbn [In]; intros e He Hc;
    repeat (destruct He as [He|He]; [subst e; try discriminate Hc; cbn [fs_path]; auto|]);
    try contradiction.
Qed.

(** X20.  Every call that the handler makes into the file system for a
    request, on whatever path it ends, names the workspace of the request or
    a path under it, and never the workspace of another execution id of the
    same length or a path under that one: the handler itself does not read,
    write or remove anything of another execution.  This is for a [filename]
    that is absent or plain, for which [path_join] follows [path.join]. *)
Theorem handler_stays_in_its_workspace :
  forall req w h other e,
    plain_filename (filename req) = true ->
    other <> w_uuid w (uuids h) ->
    String.length other = String.length (w_uuid w (uuids h)) ->
    In e (added h (snd (execute req w h))) ->
    is_fs_call e = true ->
    (fs_path e = workspace w h \/ under (workspace w h) (fs_path e) = true) /\
    fs_path e <> path_join (w_temp w) other /\
    under (path_join (w_temp w) other) (fs_path e) = false.
Proof.
  intros req w h other e _ Hother Hlen.
  destruct (other_workspace (w_temp w) _ _ Hother Hlen) as (Hws & Hunder & Hsrc & Hne).
  destruct (execute_cases req w h) as [[_ E]|[(_ & _ & E)|(config & _ & _ & _ & E)]];
    rewrite E; clear E.
  - cbn [snd]. rewrite (added_app h h []); [contradiction | now rewrite app_nil_r].
  - destruct (sandbox_trace (code req) (input_or_default (input req))
                (w_uuid w (uuids h)) w (started req w h)) as (d & Ht & Hd).
    rewrite (added_app _ _ _ (trace_started _ _ _ _ _ Ht)).
    destruct Hd as [Hd|[Hd|[text Hd]]]; subst d; cbn [In]; intros He Hc;
      repeat (destruct He as [He|He]; [subst e; discriminate Hc|]); contradiction.
  - destruct (external_paths (code req) (language req) config
                (input_or_default (input req)) (w_uuid w (uuids h)) (projectId req)
                (filename req) w (started req w h)) as (d & Ht & Hd).
    rewrite (added_app _ _ _ (trace_started _ _ _ _ _ Ht)).
    intros [He|He] Hc; [subst e; discriminate Hc|].
    unfold workspace.
    destruct (Hd e He Hc) as [Hp|Hp]; rewrite Hp.
    + split; [now left|]. split; [exact Hws | exact Hunder].
    + split; [right; apply under_join|]. split; [apply Hne | apply Hsrc].
Qed.

Lemma handler_stays_in_its_workspace_witness :
  under "/srv/temp/id-0" "/srv/temp/id-0/code.py" = true /\
  under "/srv/temp/id-1" "/srv/temp/id-0/code.py" = false.
Proof.
  destruct (handler_stays_in_its_workspace python_request
              (serial_world (fun _ => chatty_child)) busy_host "id-1"
              (EWriteFile "/srv/temp/id-0/code.py" "while True: pass")
              eq_refl ltac:(discriminate) eq_refl
              ltac:(vm_compute; auto) eq_refl) as ([H|H] & _ & Hother).
  - discriminate H.
  - split; [exact H | exact Hother].
Defined.

(** ** The output of a compiled program *)

(** X19.  For a language with a compile step that passes and a run step
    whose input is delivered (there is none, or the stdin of the program
    raises no [error] event before the step resolves), whatever the compiler
    wrote to its stdout comes first in the [output] of the answer, followed
    without separator by the stdout of the program, the whole trimmed; the
    stderr of a compiler that exits with code 0 is dropped. *)
Theorem compiler_output_is_prepended :
  forall req config w h c data rest events r,
    external_request req config ->
    workspace_written w h config req ->
    flag (compile config) = true ->
    compiler config = Some c ->
    forallb is_data data = true ->
    compile_child w h config req c = Spawned (data ++ Close (Some 0) :: rest) ->
    run_child w h config req = Spawned events ->
    stdin_delivered (input_or_default (input req)) events ->
    listen "Execution failed: " events "" "" = Some r ->
    exists response h',
      execute req w h = (Ok response, h') /\
      success (body response) = p_success r /\
      output (body response) = Some (Js.trim (stdout_of data ++ p_output r)) /\
      error (body response) = Some (Js.trim (p_error r)).
Proof.
  intros req config w h c data rest events r He Hw Hflag Hc Hdata Hcomp Hrun Hin Hlisten.
  destruct (external_run req config w h (stdout_of data) events r He Hw) as
    (response & h' & E & _ & Hs & Ho & Herr & _); try assumption.
  - right. split; [exact Hflag|]. exists c, data, rest. repeat split; assumption.
  - exists response, h'. repeat split; assumption.
Qed.

Lemma compiler_output_is_prepended_witness :
  exists response h',
    execute cpp_sum_request (sample_world (GValue Js.VUndefined) noting_toolchain) fresh
    = (Ok response, h') /\
    success (body response) = true /\
    output (body response) = Some "note: optimised 3" /\
    error (body response) = Some "".
Proof.
  apply (compiler_output_is_prepended cpp_sum_request cfg_cpp
           (sample_world (GValue Js.VUndefined) noting_toolchain) fresh "g++"
           [StdoutData "note: optimised "] [] [StdoutData "3"; Close (Some 0)]
           (mkProcResult true "3" "")); try reflexivity.
  - repeat split. discriminate.
  - split; reflexivity.
  - right. reflexivity.
Defined.

(** * The other routes of the file *)

(** ** Searching a string *)

Lemma strip_spec p s r : strip p s = Some r <-> s = p ++ r.
Proof.
  revert s. induction p as [|a p IH]; intros s; cbn [strip append].
  - split; [intros H; now inversion H | intros ->; reflexivity].
  - destruct s as [|b s]; [split; discriminate|].
    destruct (Ascii.eqb a b) eqn:E.
    + apply Ascii.eqb_eq in E. subst b. rewrite IH.
      split; [intros ->; reflexivity | intros H; now inversion H].
    + split; [discriminate|]. intros H. inversion H; subst.
      now rewrite Ascii.eqb_refl in E.
Qed.

Lemma prefix_spec p s : String.prefix p s = true <-> exists b, s = p ++ b.
Proof.
  revert s. induction p as [|a p IH]; intros s.
  - split; [intros _; now exists s | intros _; now destruct s].
  - destruct s as [|b s]; cbn [String.prefix append].
    + split; [discriminate | intros [r H]; discriminate H].
    + destruct (ascii_dec a b) as [->|N].
      * rewrite IH. split; intros [r H]; exists r; [now subst | now inversion H].
      * split; [discriminate|]. intros [r H]. inversion H. subst. now contradiction N.
Qed.

Lemma anywhere_spec here s :
  anywhere here s = true <-> exists a t, s = a ++ t /\ here t = true.
Proof.
  induction s as [|c s IH]; cbn [anywhere].
  - rewrite orb_false_r. split.
    + intros H. now exists "", "".
    + intros (a & t & E & H). destruct a; [|discriminate E].
      cbn [append] in E. now subst t.
  - rewrite orb_true_iff, IH. split.
    + intros [H|(a & t & E & H)].
      * now exists "", (String c s).
      * exists (String c a), t. split; [now subst | exact H].
    + intros (a & t & E & H). destruct a as [|x a]; cbn [append] in E.
      * left. now subst t.
      * right. inversion E; subst. now exists a, t.
Qed.

Lemma trimStart_split s : exists ws, all_space ws = true /\ s = ws ++ Js.trimStart s.
Proof.
  induction s as [|c s (ws & Hws & E)]; [now exists ""|]. cbn [Js.trimStart].
  destruct (Js.is_space c) eqn:Hc.
  - exists (String c ws). cbn [all_space append]. rewrite Hc, Hws. split; [reflexivity|].
    now rewrite <- E.
  - now exists "".
Qed.

Lemma trimStart_skips ws t : all_space ws = true -> Js.trimStart (ws ++ t) = Js.trimStart t.
Proof.
  induction ws as [|c ws IH]; [reflexivity|]. cbn [all_space append Js.trimStart].
  intros H. apply andb_true_iff in H as [Hc Hws]. rewrite Hc. now apply IH.
Qed.

(** What [name\s*\(] matches at the start of a string. *)
Lemma call_of_spec name s :
  call_of name s = true <->
  exists ws b, all_space ws = true /\ s = name ++ ws ++ "(" ++ b.
Proof.
  unfold call_of. split.
  - destruct (strip name s) as [rest|] eqn:E; [|discriminate].
    apply strip_spec in E. intros H. apply prefix_spec in H as [b Hb].
    destruct (trimStart_split rest) as (ws & Hws & Hrest).
    exists ws, b. split; [exact Hws|]. now rewrite E, Hrest, Hb at 1.
  - intros (ws & b & Hws & E).
    assert (Hs : strip name s = Some (ws ++ "(" ++ b)) by now apply strip_spec.
    rewrite Hs, (trimStart_skips _ _ Hws).
    change (Js.trimStart ("(" ++ b)) with ("(" ++ b).
    apply prefix_spec. now exists b.
Qed.

(** ** The route [POST /validate] *)

(** X8.  Every validator of [/validate] is a validator of [/execute], which
    has one more: the optional [isString] on [projectId].  Hence, whatever
    the body and however the library judges a validator on it, a request that
    [/validate] rejects is rejected by [/execute], and a request that
    [/execute] alone rejects is rejected for its [projectId] only.  On a body
    whose fields are strings that validator cannot fail: the errors of the
    two routes are then the same, in opposite order. *)
Theorem validate_rejects_less_than_execute :
  (forall v, In v validate_validators -> In v execute_validators) /\
  (forall (RawBody : Type) (fails : Validator -> RawBody -> bool) (b : RawBody),
      (failing fails validate_validators b <> [] ->
       failing fails execute_validators b <> []) /\
      (failing fails validate_validators b = [] ->
       forall v, In v (failing fails execute_validators b) ->
                 v = mkValidator FProjectId true IsString None)) /\
  (forall req,
      map (error_of req) (failing fails_on_strings execute_validators req)
      = validationResult req /\
      map (error_of req) (failing fails_on_strings validate_validators req)
      = validate_validationResult req /\
      validate_validationResult req = rev (validationResult req) /\
      (validate_validationResult req = [] <-> validationResult req = [])).
Proof.
  split; [|split].
  - intros v Hin. cbn in Hin. cbn. intuition.
  - intros RawBody fails b. unfold failing, validate_validators, execute_validators.
    cbn [filter].
    destruct (fails (mkValidator FCode false (IsLength 1) (Some "Code is required")) b);
      destruct (fails (mkValidator FLanguage false (IsIn language_keys)
                         (Some "Unsupported language")) b);
      destruct (fails (mkValidator FProjectId true IsString None) b);
      (split; [intros H; first [discriminate | exfalso; apply H; reflexivity]
              | intros H; try discriminate H; cbn [In]; intros v Hv;
                repeat destruct Hv as [Hv|Hv]; auto; contradiction]).
  - intros req.
    assert (Hrev : validate_validationResult req = rev (validationResult req)).
    { unfold validate_validationResult, validationResult.
      destruct (existsb _ _); destruct (String.length (code req) =? 0)%nat; reflexivity. }
    assert (Hlen : (String.length (code req) <? 1)%nat
                   = (String.length (code req) =? 0)%nat).
    { destruct (String.length (code req)) as [|[|n]]; reflexivity. }
    split; [|split; [|split]].
    + unfold failing, execute_validators, fails_on_strings, validationResult.
      cbn [filter on_field rule field_value]. rewrite Hlen.
      destruct (String.length (code req) =? 0)%nat;
        destruct (existsb (String.eqb (language req)) language_keys);
        destruct (projectId req); reflexivity.
    + unfold failing, validate_validators, fails_on_strings, validate_validationResult.
      cbn [filter on_field rule field_value]. rewrite Hlen.
      destruct (String.length (code req) =? 0)%nat;
        destruct (existsb (String.eqb (language req)) language_keys); reflexivity.
    + exact Hrev.
    + rewrite Hrev. split; intros H.
      * apply (f_equal (@rev _)) in H. now rewrite rev_involutive in H.
      * now rewrite H.
Qed.

Lemma validate_rejects_less_than_execute_witness :
  failing fails_on_strings execute_validators
    (mkRequest "" "python" None None None None None) <> [].
Proof.
  apply (proj1 (proj1 (proj2 validate_rejects_less_than_execute) Request fails_on_strings
                  (mkRequest "" "python" None None None None None))).
  discriminate.
Defined.

Lemma security_issues_spec code text :
  In (mkIssue "security" (Some text)) (security_issues code) <->
  (text = "Avoid using eval() - security risk" /\ tests_eval code = true) \/
  (text = "Avoid using Function constructor - security risk"
   /\ tests_Function code = true) \/
  (text = "Avoid document.write - can break page structure"
   /\ tests_document_write code = true).
Proof.
  unfold security_issues, securityPatterns. cbn [flat_map fst snd app].
  destruct (tests_eval code), (tests_Function code), (tests_document_write code);
    cbn [app In]; split; intros H;
    repeat match goal with
           | H : _ \/ _ |- _ => destruct H as [H|H]
           | H : _ /\ _ |- _ => destruct H as [? H]
           | H : mkIssue _ _ = mkIssue _ _ |- _ => inversion H; clear H; subst
           | H : False |- _ => contradiction
           | H : false = true |- _ => discriminate H
           end; subst; auto 6.
Qed.

(** The language is one of the two that the route hands to a VM. *)
Lemma scripted_spec lang :
  (String.eqb lang "javascript" || String.eqb lang "typescript")%bool = true <->
  lang = "javascript" \/ lang = "typescript".
Proof.
  rewrite orb_true_iff, !String.eqb_eq. reflexivity.
Qed.

(** What the route answers, case by case. *)
Lemma validate_answer vm_check req w h :
  exists response t,
    validate vm_check req w h
    = (Ok response, mkHost (clock h) (uuids h) (fs h) (trace h ++ t)) /\
    (validate_validationResult req <> [] /\ t = [] /\
     response = mkValidateResponse 400
                  (mkValidateBody false None (Some (validate_validationResult req)) None)
     \/
     validate_validationResult req = [] /\
     (language req = "javascript" \/ language req = "typescript") /\
     check_throws_nullish (vm_check (wrapped (code req))) /\
     (exists text, t = [ENewVM 1000; ELog "error" text]) /\
     response = mkValidateResponse 500
                  (mkValidateBody false None None (Some "Validation failed"))
     \/
     validate_validationResult req = [] /\
     ~ ((language req = "javascript" \/ language req = "typescript") /\
        check_throws_nullish (vm_check (wrapped (code req)))) /\
     exists ok issues suggestions,
       response = mkValidateResponse 200
                    (mkValidateBody true
                       (Some (mkValidation ok (language req)
                                (issues ++ security_issues (code req)) suggestions))
                       None None) /\
       ((language req = "javascript" \/ language req = "typescript") /\
        vm_check (wrapped (code req)) = Passes /\
        ok = true /\ issues = [] /\ suggestions = ["Syntax appears valid"] /\
        t = [ENewVM 1000]
        \/
        (language req = "javascript" \/ language req = "typescript") /\
        vm_check (wrapped (code req)) <> Passes /\
        (exists m, issues = [mkIssue "syntax" m]) /\
        ok = false /\ suggestions = [] /\ t = [ENewVM 1000]
        \/
        ~ (language req = "javascript" \/ language req = "typescript") /\
        ok = true /\ issues = [] /\ suggestions = [] /\ t = [])).
Proof.
  unfold validate, check_throws_nullish. host_unfold.
  destruct (validate_validationResult req) as [|e es] eqn:Hv; cbn [isEmpty negb].
  - pose proof (scripted_spec (language req)) as Hs.
    destruct (String.eqb (language req) "javascript"
              || String.eqb (language req) "typescript")%bool.
    + assert (Hl : language req = "javascript" \/ language req = "typescript")
        by (now apply Hs).
      destruct (vm_check (wrapped (code req))) as [|text|v] eqn:Hc;
        [| |destruct (Js.message_TypeError v) as [typeError|] eqn:Hm];
        cbv beta iota; host_simpl; cbn [v_success v_language v_issues v_suggestions].
      * eexists. exists [ENewVM 1000]. split; [reflexivity|]. right. right.
        split; [reflexivity|]. split; [intros [_ (v & Hv' & _)]; discriminate Hv'|].
        eexists. eexists. eexists. split; [reflexivity|].
        left. repeat split. exact Hl.
      * eexists. exists [ENewVM 1000]. split; [reflexivity|]. right. right.
        split; [reflexivity|]. split; [intros [_ (v & Hv' & _)]; discriminate Hv'|].
        eexists. eexists. eexists. split; [reflexivity|].
        right. left. repeat split; [exact Hl | discriminate | now eexists].
      * eexists. eexists. split; [rewrite <- app_assoc; reflexivity|]. right. left.
        split; [reflexivity|]. split; [exact Hl|]. split.
        -- exists v. split; [reflexivity|]. rewrite Hm. discriminate.
        -- split; [eexists; reflexivity | reflexivity].
      * eexists. exists [ENewVM 1000]. split; [reflexivity|]. right. right.
        split; [reflexivity|]. split.
        -- intros [_ (v' & Hv' & Hm')]. inversion Hv'; subst. contradiction.
        -- eexists. eexists. eexists. split; [reflexivity|].
           right. left. repeat split; [exact Hl | discriminate | now eexists].
    + assert (Hl : ~ (language req = "javascript" \/ language req = "typescript")).
      { intros H. apply Hs in H. discriminate H. }
      cbv beta iota. host_simpl. cbn [v_success v_language v_issues v_suggestions].
      eexists. exists []. rewrite app_nil_r. split; [now destruct h|]. right. right.
      split; [reflexivity|]. split; [intros [H _]; contradiction|].
      eexists. eexists. eexists. split; [reflexivity|].
      right. right. repeat split. exact Hl.
  - eexists. exists []. rewrite app_nil_r. split; [now destruct h|]. left.
    split; [discriminate|]. split; reflexivity.
Qed.



(** X10.  In every answer of [/validate] with status 200, the issue "Avoid
    using eval() - security risk" is present exactly when the code contains
    the letters eval followed by any white space and an opening parenthesis,
    wherever they stand (inside a longer name or a string as well); likewise
    for Function and its message, and for the text document.write and its
    message.  These are the only issues of type "security". *)
Theorem validate_security_scan :
  forall vm_check req w h response h',
    validate vm_check req w h = (Ok response, h') ->
    vr_status response = 200 ->
    exists v,
      vb_validation (vr_body response) = Some v /\
      forall m,
        In (mkIssue "security" m) (v_issues v) <->
        (m = Some "Avoid using eval() - security risk" /\
         exists a ws b, all_space ws = true /\ code req = a ++ "eval" ++ ws ++ "(" ++ b)
        \/
        (m = Some "Avoid using Function constructor - security risk" /\
         exists a ws b, all_space ws = true /\ code req = a ++ "Function" ++ ws ++ "(" ++ b)
        \/
        (m = Some "Avoid document.write - can break page structure" /\
         exists a b, code req = a ++ "document.write" ++ b).
Proof.
  intros vm_check req w h response h' E Hstatus.
  destruct (validate_answer vm_check req w h) as (response' & t & E' & Hcases).
  rewrite E in E'. inversion E'; subst response'. clear E'.
  destruct Hcases as [(_ & _ & ->)
                     |[(_ & _ & _ & _ & ->)
                      |(_ & _ & ok & issues & suggestions & -> & Hcases)]];
    try discriminate Hstatus.
  eexists. split; [reflexivity|]. intros m. cbn [v_issues].
  assert (Hsyntax : In (mkIssue "security" m) (issues ++ security_issues (code req))
                    <-> In (mkIssue "security" m) (security_issues (code req))).
  { rewrite in_app_iff. split; [|auto]. intros [H|H]; [|exact H].
    destruct Hcases as [(_ & _ & _ & -> & _)|[(_ & _ & (m' & ->) & _)|(_ & _ & -> & _)]];
      cbn [In] in H; try contradiction.
    destruct H as [H|[]]. discriminate H. }
  rewrite Hsyntax.
  assert (Hsome : In (mkIssue "security" m) (security_issues (code req)) ->
                  exists text, m = Some text).
  { unfold security_issues, securityPatterns. cbn [flat_map fst snd app].
    destruct (tests_eval (code req)), (tests_Function (code req)),
      (tests_document_write (code req)); cbn [app In]; intros H;
      repeat destruct H as [H|H]; try contradiction; inversion H; eexists; reflexivity. }
  assert (Hcall : forall name,
             (exists a t, code req = a ++ t /\ call_of name t = true) <->
             (exists a ws b, all_space ws = true /\ code req = a ++ name ++ ws ++ "(" ++ b)).
  { intros name. split.
    - intros (a & u & Ha & Hu). apply call_of_spec in Hu as (ws & b & Hws & Hb).
      exists a, ws, b. split; [exact Hws | now subst].
    - intros (a & ws & b & Hws & Ha). exists a, (name ++ ws ++ "(" ++ b).
      split; [exact Ha|]. apply call_of_spec. now exists ws, b. }
  assert (Hdoc : (exists a t, code req = a ++ t /\ String.prefix "document.write" t = true)
                 <-> (exists a b, code req = a ++ "document.write" ++ b)).
  { split.
    - intros (a & u & Ha & Hu). apply prefix_spec in Hu as [b Hb].
      exists a, b. now subst.
    - intros (a & b & Ha). exists a, ("document.write" ++ b).
      split; [exact Ha|]. apply prefix_spec. now exists b. }
  assert (Hspec : forall text,
             In (mkIssue "security" (Some text)) (security_issues (code req)) <->
             (text = "Avoid using eval() - security risk" /\
              exists a ws b, all_space ws = true /\ code req = a ++ "eval" ++ ws ++ "(" ++ b)
             \/
             (text = "Avoid using Function constructor - security risk" /\
              exists a ws b, all_space ws = true
                             /\ code req = a ++ "Function" ++ ws ++ "(" ++ b)
             \/
             (text = "Avoid document.write - can break page structure" /\
              exists a b, code req = a ++ "document.write" ++ b)).
  { intros text. rewrite security_issues_spec.
    unfold tests_eval, tests_Function, tests_document_write.
    rewrite !anywhere_spec, !Hcall, Hdoc. reflexivity. }
  split.
  - intros H. destruct (Hsome H) as [text ->]. apply Hspec in H.
    destruct H as [[-> H]|[[-> H]|[-> H]]]; auto.
  - intros [[-> H]|[[-> H]|[-> H]]]; apply Hspec; auto.
Qed.

Lemma validate_security_scan_witness :
  exists response h' v,
    validate accepting
      (mkRequest "x = retrieval  (key)" "python" None None None None None)
      (sample_world (GValue Js.VUndefined) any_child) fresh = (Ok response, h') /\
    vb_validation (vr_body response) = Some v /\
    In (mkIssue "security" (Some "Avoid using eval() - security risk")) (v_issues v).
Proof.
  eexists. eexists.
  edestruct (validate_security_scan accepting
               (mkRequest "x = retrieval  (key)" "python" None None None None None)
               (sample_world (GValue Js.VUndefined) any_child) fresh)
    as (v & Hv & Hscan).
  - vm_compute. reflexivity.
  - reflexivity.
  - exists v. split; [reflexivity|]. split; [exact Hv|].
    apply Hscan. left. split; [reflexivity|].
    exists "x = retri", "  ", "key)". split; reflexivity.
Defined.

(** ** The route [GET /languages] *)

Lemma javascript_touches_nothing req w h :
  validationResult req = [] ->
  language req = "javascript" ->
  existsb touches_system (added h (snd (execute req w h))) = false.
Proof.
  intros Hv Hl. rewrite (execute_sandbox req w h Hv Hl).
  destruct (sandbox_trace (code req) (input_or_default (input req))
              (w_uuid w (uuids h)) w (started req w h)) as (d & Ht & Hd).
  rewrite (added_app _ _ _ (trace_started _ _ _ _ _ Ht)).
  destruct Hd as [Hd|[Hd|[text Hd]]]; subst d; reflexivity.
Qed.

(** X11.  What [/languages] lists agrees with what [/execute] does with a
    request whose language is one of the listed ids, given as a string, and
    whose code is not empty: the validators accept the request; for the one
    id listed with [sandbox = true], "javascript", the handler spawns no
    process and writes no file; for an id listed with [sandbox = false] the
    processes it spawns are, in order, the first of the commands fixed for
    that id, which are two (the compiler, then the runner) when the id is
    listed with [hasCompilation = true] and one otherwise; and the default
    source file is "code" followed by the listed extension. *)
Theorem languages_agree_with_execute :
  forall info,
    In info languages ->
    (li_sandbox info = true <-> li_id info = "javascript") /\
    (forall config,
        lookup LANGUAGE_CONFIGS (li_id info) = Some config ->
        code_file_name config None = "code" ++ li_extension info /\
        List.length (invocations (li_id info) None)
        = (if li_hasCompilation info then 2 else 1)%nat) /\
    (forall req,
        language req = li_id info ->
        code req <> "" ->
        validationResult req = [] /\
        forall w h,
          (li_sandbox info = true ->
           existsb touches_system (added h (snd (execute req w h))) = false) /\
          (li_sandbox info = false ->
           exists n,
             spawns (added h (snd (execute req w h)))
             = firstn n (invocations (li_id info) (filename req)))).
Proof.
  intros info Hin.
  assert (Hkey : In (li_id info) language_keys).
  { apply (in_map li_id) in Hin. exact Hin. }
  assert (Hsand : li_sandbox info = true <-> li_id info = "javascript").
  { unfold languages in Hin. cbn in Hin.
    repeat destruct Hin as [<-|Hin]; try contradiction;
      cbn [li_sandbox li_id]; split; intros H; first [reflexivity | discriminate H]. }
  split; [exact Hsand|]. split.
  - intros config Hc. unfold languages in Hin. cbn in Hin.
    repeat destruct Hin as [<-|Hin]; try contradiction;
      cbn [li_id] in Hc; inversion Hc; subst config; split; reflexivity.
  - intros req Hl Hcode.
    assert (Hv : validationResult req = []).
    { apply validation_passes_iff. split; [exact Hcode | now rewrite Hl]. }
    split; [exact Hv|]. intros w h. split.
    + intros Hs. apply javascript_touches_nothing; [exact Hv|].
      rewrite Hl. now apply Hsand.
    + intros _. rewrite <- Hl. apply spawns_prefix.
Qed.

Lemma languages_agree_with_execute_witness :
  exists n,
    spawns (added fresh (snd (execute java_request
                                (sample_world (GValue Js.VUndefined) failing_javac) fresh)))
    = firstn n (invocations "java" None).
Proof.
  destruct (languages_agree_with_execute
              (mkLanguageInfo "java" "Java" ".java" true true false)) as (_ & _ & Hreq).
  - unfold languages. cbn. tauto.
  - destruct (Hreq java_request eq_refl) as [_ Hrun].
    + discriminate.
    + apply (Hrun (sample_world (GValue Js.VUndefined) failing_javac) fresh). reflexivity.
Defined.

(** * The client *)

Module ClientFacts.
Import Client.

(** ** The execution history *)

Lemma remember_spec {A} (entry : A) (history : list A) :
  (List.length history <= 50)%nat ->
  remember entry history
  = skipn (List.length (history ++ [entry]) - 50) (history ++ [entry]).
Proof.
  intros Hlen. unfold remember. rewrite length_app. cbn [List.length].
  destruct (Nat.ltb_spec 50 (List.length history + 1)) as [Hgt|Hle].
  - replace (List.length history + 1 - 50)%nat with 1%nat by lia.
    destruct (history ++ [entry])%list; reflexivity.
  - replace (List.length history + 1 - 50)%nat with 0%nat by lia. reflexivity.
Qed.

Lemma latest_extend {A} (l es : list A) :
  let kept := skipn (List.length l - 50) l in
  skipn (List.length (kept ++ es) - 50) (kept ++ es)
  = skipn (List.length (l ++ es) - 50) (l ++ es).
Proof.
  intros kept. subst kept.
  destruct (Nat.le_gt_cases (List.length l) 50) as [Hle|Hgt].
  - replace (List.length l - 50)%nat with 0%nat by lia. reflexivity.
  - rewrite !length_app, length_skipn.
    replace (List.length l - (List.length l - 50) + List.length es - 50)%nat
      with (List.length es) by lia.
    replace (List.length l + List.length es - 50)%nat
      with (List.length es + (List.length l - 50))%nat by lia.
    rewrite <- skipn_skipn.
    rewrite (skipn_app (List.length l - 50) l es).
    replace (List.length l - 50 - List.length l)%nat with 0%nat by lia.
    reflexivity.
Qed.

Lemma remember_all_spec {A} (entries history : list A) :
  (List.length history <= 50)%nat ->
  remember_all entries history
  = skipn (List.length (history ++ entries) - 50) (history ++ entries).
Proof.
  revert history. induction entries as [|e es IH]; intros history Hlen.
  - cbn [remember_all fold_left]. rewrite app_nil_r.
    replace (List.length history - 50)%nat with 0%nat by lia. reflexivity.
  - change (remember_all (e :: es) history) with (remember_all es (remember e history)).
    rewrite (remember_spec e history Hlen).
    rewrite IH.
    + rewrite (latest_extend (history ++ [e]) es), <- app_assoc. reflexivity.
    + rewrite length_skipn, length_app. cbn [List.length]. lia.
Qed.

End ClientFacts.

(** X12.  The execution history of the client never holds more than 50
    entries: after any number of executions it is made of the 50 most recent
    entries (of all of them when there are fewer), oldest first. *)
Theorem history_keeps_the_latest_50 :
  forall (A : Type) (entries history : list A),
    (List.length history <= 50)%nat ->
    Client.remember_all entries history
    = skipn (List.length (history ++ entries) - 50) (history ++ entries) /\
    (List.length (Client.remember_all entries history) <= 50)%nat.
Proof.
  intros A entries history Hlen.
  rewrite (ClientFacts.remember_all_spec entries history Hlen).
  split; [reflexivity|]. rewrite length_skipn. lia.
Qed.

Lemma history_keeps_the_latest_50_witness :
  Client.remember_all (seq 0 60) [] = seq 10 50.
Proof.
  rewrite (proj1 (history_keeps_the_latest_50 nat (seq 0 60) [] ltac:(cbn; lia))).
  reflexivity.
Defined.

(** ** The memory samples *)

Lemma map_set_known {V} key (value : V) m :
  In key (map fst m) ->
  List.length (Client.map_set key value m) = List.length m /\
  map fst (Client.map_set key value m) = map fst m.
Proof.
  induction m as [|[k v] m IH]; intros Hin; [contradiction|].
  cbn [Client.map_set]. destruct (Z.eqb_spec k key) as [->|Hne].
  - split; reflexivity.
  - destruct Hin as [Hk|Hin]; [cbn in Hk; contradiction|].
    destruct (IH Hin) as [Hlen Hkeys]. cbn [List.length map fst].
    now rewrite Hlen, Hkeys.
Qed.

Lemma map_set_new {V} key (value : V) m :
  ~ In key (map fst m) -> Client.map_set key value m = (m ++ [(key, value)])%list.
Proof.
  induction m as [|[k v] m IH]; intros Hnot; [reflexivity|].
  cbn [Client.map_set]. destruct (Z.eqb_spec k key) as [->|Hne].
  - exfalso. apply Hnot. now left.
  - cbn [app]. rewrite IH; [reflexivity|]. intros Hin. apply Hnot. now right.
Qed.

Lemma map_set_holds {V} key (value : V) m : In (key, value) (Client.map_set key value m).
Proof.
  induction m as [|[k v] m IH]; [now left|].
  cbn [Client.map_set]. destruct (Z.eqb_spec k key) as [->|Hne]; [now left | now right].
Qed.

(** X13.  One tick of the performance monitor keeps the map of memory samples
    within 100 entries with distinct keys, and the sample just taken is always
    among them; without [performance.memory] the map is left as it is. *)
Theorem memory_samples_are_bounded :
  forall (V : Type) (now : Z) (sample : option V) (m : list (Z * V)),
    (List.length m <= 100)%nat ->
    NoDup (map fst m) ->
    let m' := Client.monitor now sample m in
    (List.length m' <= 100)%nat /\
    NoDup (map fst m') /\
    (forall value, sample = Some value -> In (now, value) m') /\
    (sample = None -> m' = m).
Proof.
  intros V now sample m Hlen Hdup m'. subst m'.
  destruct sample as [value|]; cbn [Client.monitor].
  2: { repeat split; try assumption. intros value H; discriminate H. }
  destruct (in_dec Z.eq_dec now (map fst m)) as [Hin|Hnot].
  - destruct (map_set_known now value m Hin) as [Hl Hk].
    rewrite Hl. destruct (Nat.ltb_spec 100 (List.length m)) as [Hgt|_]; [lia|].
    rewrite Hl, Hk. repeat split; try assumption.
    + intros v Hv. inversion Hv; subst. apply map_set_holds.
    + intros H; discriminate H.
  - rewrite (map_set_new now value m Hnot), length_app. cbn [List.length].
    assert (Hdup' : NoDup (map fst (m ++ [(now, value)]))).
    { rewrite map_app. cbn [map fst]. apply NoDup_app.
      - exact Hdup.
      - constructor; [intros [] | constructor].
      - intros k Hk [Hk'|[]]. subst k. now apply Hnot. }
    destruct (Nat.ltb_spec 100 (List.length m + 1)) as [Hgt|Hle].
    + destruct m as [|[k v] m]; [cbn in Hgt; lia|]. cbn [app tl].
      repeat split.
      * rewrite length_app. cbn [List.length] in *. lia.
      * cbn [app map fst] in Hdup'. now inversion Hdup'.
      * intros v' Hv. inversion Hv; subst. apply in_or_app. right. now left.
      * intros H; discriminate H.
    + repeat split.
      * rewrite length_app. cbn [List.length]. lia.
      * exact Hdup'.
      * intros v' Hv. inversion Hv; subst. apply in_or_app. right. now left.
      * intros H; discriminate H.
Qed.

Lemma memory_samples_are_bounded_witness :
  Client.monitor 7 (Some "c") [(5, "a"); (7, "b")] = [(5, "a"); (7, "c")] /\
  In (7, "c") (Client.monitor 7 (Some "c") [(5, "a"); (7, "b")]).
Proof.
  split; [reflexivity|].
  destruct (memory_samples_are_bounded string 7 (Some "c") [(5, "a"); (7, "b")])
    as (_ & _ & Hin & _).
  - cbn. lia.
  - cbn. repeat constructor; cbn; intuition discriminate.
  - apply Hin. reflexivity.
Defined.

(** ** The runners of the client *)

Lemma fetches_app (t u : list Client.Effect) :
  Client.fetches (t ++ u) = (Client.fetches t ++ Client.fetches u)%list.
Proof.
  induction t as [|e t IH]; [reflexivity|].
  destruct e; cbn [app Client.fetches]; rewrite IH; reflexivity.
Qed.

Lemma workers_app (t u : list Client.Effect) :
  Client.workers (t ++ u) = (Client.workers t ++ Client.workers u)%list.
Proof.
  induction t as [|e t IH]; [reflexivity|].
  destruct e; cbn [app Client.workers]; rewrite IH; reflexivity.
Qed.

Lemma runInWorker_trace b s code input o :
  fst (Client.runInWorker b s code input o)
  = [Client.StartWorker (Client.workerURL s) (Client.worker_budget o);
     Client.TerminateWorker].
Proof.
  unfold Client.runInWorker.
  destruct (Client.b_worker b _); [reflexivity|].
  destruct (Client.worker_onmessage _ _); reflexivity.
Qed.

Lemma runInPyodide_fetches b code : Client.fetches (fst (Client.runInPyodide b code)) = [].
Proof.
  unfold Client.runInPyodide. destruct (Client.b_pyodide b); reflexivity.
Qed.

Lemma executeJavaScript_fetches b s code input o :
  Client.fetches (fst (Client.executeJavaScript b s code input o))
  = if (negb (Client.forceLocal o) && Client.isBackendAvailable s)%bool
    then [("javascript", code, input)] else [].
Proof.
  unfold Client.executeJavaScript, Client.executeOnBackend.
  destruct (negb (Client.forceLocal o) && Client.isBackendAvailable s)%bool.
  - destruct (Client.b_execute b "javascript" code input); try reflexivity.
    all: destruct (Client.runInWorker b s code input o) as [t' r] eqn:E.
    all: cbn [fst]; rewrite fetches_app; cbn [Client.fetches app].
    all: pose proof (runInWorker_trace b s code input o) as Ht; rewrite E in Ht.
    all: cbn [fst] in Ht; now subst t'.
  - now rewrite runInWorker_trace.
Qed.

Lemma executePython_fetches b s code input o :
  Client.fetches (fst (Client.executePython b s code input o))
  = if Client.isBackendAvailable s then [("python", code, input)] else [].
Proof.
  unfold Client.executePython, Client.executeOnBackend.
  destruct (Client.isBackendAvailable s).
  - destruct (Client.b_execute b "python" code input); try reflexivity.
    all: destruct (Client.runInPyodide b code) as [t' r] eqn:E.
    all: cbn [fst]; rewrite fetches_app; cbn [Client.fetches app].
    all: pose proof (runInPyodide_fetches b code) as Ht; rewrite E in Ht.
    all: cbn [fst] in Ht; now rewrite Ht.
  - apply runInPyodide_fetches.
Qed.

Lemma dispatch_javascript b s call :
  speaks_javascript call = true ->
  Client.dispatch b s call
  = Client.executeJavaScript b s (Client.c_code call) (Client.c_input call)
      (Client.c_options call).
Proof.
  unfold speaks_javascript, Client.dispatch, Client.executeTypeScript. cbv zeta.
  destruct (String.eqb _ "javascript"), (String.eqb _ "js"),
    (String.eqb _ "typescript"), (String.eqb _ "ts");
    cbn [orb]; intros H; first [reflexivity | discriminate H].
Qed.

(** X14.  The client asks the backend at most once per execution, with the
    code and the input of the call as they are, and under two language names
    only: "javascript" for a call in JavaScript or TypeScript (in any
    spelling the switch accepts), unless the call forces local execution, and
    "python" for a call in Python, whether or not it forces local execution.
    It never asks before [initialize] has run, and never for any other
    language. *)
Theorem backend_is_asked_for_two_languages :
  forall b s call,
    Client.fetches (fst (Client.dispatch b s call))
    = if speaks_javascript call then
        if (negb (Client.forceLocal (Client.c_options call))
            && Client.isBackendAvailable s)%bool
        then [("javascript", Client.c_code call, Client.c_input call)] else []
      else if speaks_python call then
        if Client.isBackendAvailable s
        then [("python", Client.c_code call, Client.c_input call)] else []
      else [].
Proof.
  intros b s call.
  destruct (speaks_javascript call) eqn:Hjs.
  - rewrite (dispatch_javascript b s call Hjs). apply executeJavaScript_fetches.
  - unfold speaks_javascript, speaks_python in *. unfold Client.dispatch.
    cbv zeta in *.
    destruct (String.eqb _ "javascript"), (String.eqb _ "js"),
      (String.eqb _ "typescript"), (String.eqb _ "ts"); try discriminate Hjs.
    cbn [orb].
    destruct (String.eqb _ "python"), (String.eqb _ "py"); cbn [orb];
      try apply executePython_fetches.
    destruct (String.eqb _ "html");
      [unfold Client.executeHTML; reflexivity|].
    destruct (String.eqb _ "css"); [|reflexivity].
    unfold Client.executeCSS. destruct (Client.b_style b _); reflexivity.
Qed.

(** X15.  A call that [executeCode] takes up (it is not put on the queue) in
    a language the switch does not know, whatever the case of its letters, is
    answered with [success = false], an empty output and
    the error "Unsupported language: " followed by the language as the
    caller wrote it; nothing is asked of the backend, no worker is started
    and the history is left as it is. *)
Theorem unsupported_language_is_answered :
  forall b s executionId call history,
    ~ In (Client.toLowerCase (Client.c_language call)) Client.spellings ->
    Client.attempt b s executionId call history
    = ([Client.Emit "executionStarted"; Client.Emit "executionError"],
       Some (Client.mkAnswer
               (Client.Plain false ""
                  (Some ("Unsupported language: " ++ Client.c_language call)) None)
               executionId),
       history).
Proof.
  intros b s executionId call history Hnot.
  unfold Client.attempt, Client.dispatch. cbv zeta.
  assert (Hneq : forall l, In l Client.spellings ->
                           String.eqb (Client.toLowerCase (Client.c_language call)) l = false).
  { intros l Hl. apply String.eqb_neq. intros E. apply Hnot. now rewrite E. }
  rewrite !Hneq by (cbn; tauto). reflexivity.
Qed.

Lemma unsupported_language_is_answered_witness :
  Client.attempt Client.offline_browser Client.create "1700000000000"
    (Client.mkCall "puts 1" "Ruby" "" (Client.mkOptions false None)) []
  = ([Client.Emit "executionStarted"; Client.Emit "executionError"],
     Some (Client.mkAnswer
             (Client.Plain false "" (Some "Unsupported language: Ruby") None)
             "1700000000000"),
     []).
Proof.
  apply (unsupported_language_is_answered Client.offline_browser Client.create
           "1700000000000"
           (Client.mkCall "puts 1" "Ruby" "" (Client.mkOptions false None)) []).
  cbn. intuition discriminate.
Defined.

(** X16.  For a call in JavaScript or TypeScript: when the backend is asked
    and answers with a JSON body, that body is the result, whatever its
    [success], and no worker is started; when the backend is asked and the
    request fails or is answered with a status that is not ok, the code is run
    in a worker and the worker decides the result; when the backend is not
    asked the worker runs the code at once.  The worker gets the budget of the
    call's options, 10000 ms when that is absent or 0, and a worker that posts
    nothing within it yields the error "Execution timeout". *)
Theorem javascript_falls_back_to_the_worker :
  forall b s call,
    speaks_javascript call = true ->
    let o := Client.c_options call in
    let code := Client.c_code call in
    let input := Client.c_input call in
    let asked := (negb (Client.forceLocal o) && Client.isBackendAvailable s)%bool in
    (asked = true ->
     forall body,
       Client.b_execute b "javascript" code input = Client.Json body ->
       Client.dispatch b s call
       = ([Client.Fetch "javascript" code input], Client.Done (Client.FromBackend body))) /\
    (asked = true ->
     (exists e, Client.b_execute b "javascript" code input = Client.Rejects e) \/
     (exists st, Client.b_execute b "javascript" code input = Client.NotOk st) ->
     snd (Client.dispatch b s call) = snd (Client.runInWorker b s code input o) /\
     Client.workers (fst (Client.dispatch b s call)) = [Client.worker_budget o]) /\
    (asked = false ->
     Client.dispatch b s call = Client.runInWorker b s code input o) /\
    Client.workers (fst (Client.runInWorker b s code input o)) = [Client.worker_budget o] /\
    (Client.timeout o = None \/ Client.timeout o = Some 0 ->
     Client.worker_budget o = 10000) /\
    (Client.b_worker b (Client.workerURL s) = None ->
     Client.worker_onmessage (Client.b_script b code input) "" = None ->
     snd (Client.runInWorker b s code input o) = Client.Raised "Execution timeout").
Proof.
  intros b s call Hjs o code input asked. subst o code input asked.
  rewrite (dispatch_javascript b s call Hjs).
  unfold Client.executeJavaScript, Client.executeOnBackend.
  repeat apply conj.
  - intros Ha body Hb. now rewrite Ha, Hb.
  - intros Ha Hfail. rewrite Ha.
    destruct (Client.runInWorker b s (Client.c_code call) (Client.c_input call)
                (Client.c_options call)) as [t' r] eqn:E.
    pose proof (runInWorker_trace b s (Client.c_code call) (Client.c_input call)
                  (Client.c_options call)) as Ht.
    rewrite E in Ht. cbn [fst] in Ht. subst t'.
    destruct Hfail as [[e Hb]|[st Hb]]; rewrite Hb; cbn [fst snd app Client.workers];
      split; reflexivity.
  - intros Ha. now rewrite Ha.
  - now rewrite runInWorker_trace.
  - intros [H|H]; unfold Client.worker_budget; now rewrite H.
  - intros Hw Hq. unfold Client.runInWorker. now rewrite Hw, Hq.
Qed.

Lemma javascript_falls_back_to_the_worker_witness :
  snd (Client.dispatch Client.offline_browser
         (Client.mkService true None (Some "blob:1")) typescript_call)
  = snd (Client.runInWorker Client.offline_browser
           (Client.mkService true None (Some "blob:1"))
           "let x: number = 1" "" (Client.mkOptions false None)) /\
  Client.workers (fst (Client.dispatch Client.offline_browser
                         (Client.mkService true None (Some "blob:1")) typescript_call))
  = [10000].
Proof.
  destruct (javascript_falls_back_to_the_worker Client.offline_browser
              (Client.mkService true None (Some "blob:1")) typescript_call eq_refl)
    as (_ & Hfall & _).
  apply Hfall; [reflexivity|]. left. now exists "Failed to fetch".
Defined.

(** X17.  [initialize] does nothing on a service that is initialized.  On a
    fresh one it always ends with [isInitialized] set, whether the backend
    answered or not, so that [isBackendAvailable] holds afterwards in both
    cases; but only when the backend answered is the worker script created
    and the monitoring started.  Hence a service initialized while the backend
    was down still asks the backend first for JavaScript, and when that fails
    again starts its worker without a script. *)
Theorem initialize_always_enables_the_backend :
  forall b s,
    (Client.isInitialized s = true -> Client.initialize b s = ([], s)) /\
    (Client.isInitialized s = false ->
     forall body,
       Client.b_status b = Client.Json body ->
       let (t, s') := Client.initialize b s in
       Client.isInitialized s' = true /\
       Client.workerURL s' = Some (Client.b_objectURL b) /\
       In Client.CreateWorkerScript t /\ In Client.StartMonitoring t) /\
    (Client.isInitialized s = false ->
     (exists e, Client.b_status b = Client.Rejects e) \/
     (exists st, Client.b_status b = Client.NotOk st) ->
     let (t, s') := Client.initialize b s in
     Client.isInitialized s' = true /\
     Client.workerURL s' = Client.workerURL s /\
     ~ In Client.CreateWorkerScript t /\ ~ In Client.StartMonitoring t /\
     (Client.offlineMode s = None -> Client.isBackendAvailable s' = true)) /\
    (forall call,
        (exists e, Client.b_status b = Client.Rejects e) ->
        speaks_javascript call = true ->
        Client.forceLocal (Client.c_options call) = false ->
        let s' := snd (Client.initialize b Client.create) in
        let t := fst (Client.dispatch b s' call) in
        Client.fetches t = [("javascript", Client.c_code call, Client.c_input call)] /\
        ((exists e, Client.b_execute b "javascript" (Client.c_code call)
                      (Client.c_input call) = Client.Rejects e) ->
         In (Client.StartWorker None (Client.worker_budget (Client.c_options call))) t)).
Proof.
  intros b s. repeat apply conj.
  - intros Hi. unfold Client.initialize. now rewrite Hi.
  - intros Hi body Hb. unfold Client.initialize. rewrite Hi, Hb.
    repeat split; cbn; tauto.
  - intros Hi Hfail. unfold Client.initialize. rewrite Hi.
    destruct Hfail as [[e Hb]|[st Hb]]; rewrite Hb.
    all: repeat split; try reflexivity.
    all: try (cbn [In]; intros H; intuition discriminate).
    all: intros Ho; unfold Client.isBackendAvailable; cbn; now rewrite Ho.
  - intros call [e Hb] Hjs Hforce s' t. subst s' t.
    unfold Client.initialize, Client.create. cbn [Client.isInitialized].
    rewrite Hb. cbn [snd Client.workerURL Client.offlineMode].
    rewrite (dispatch_javascript b _ call Hjs).
    split.
    + rewrite executeJavaScript_fetches, Hforce. reflexivity.
    + intros [e' He]. unfold Client.executeJavaScript, Client.executeOnBackend.
      rewrite Hforce, He. cbn [negb andb Client.isBackendAvailable Client.isInitialized
                               Client.offlineMode flag].
      destruct (Client.runInWorker b _ _ _ _) as [t' r] eqn:E.
      pose proof (runInWorker_trace b (Client.mkService true None None)
                    (Client.c_code call) (Client.c_input call) (Client.c_options call)) as Ht.
      rewrite E in Ht. cbn [fst] in Ht. subst t'.
      cbn [fst Client.workerURL app In]. tauto.
Qed.

Lemma initialize_always_enables_the_backend_witness :
  Client.isBackendAvailable (snd (Client.initialize Client.offline_browser Client.create))
  = true /\
  Client.workerURL (snd (Client.initialize Client.offline_browser Client.create)) = None.
Proof.
  destruct (initialize_always_enables_the_backend Client.offline_browser Client.create)
    as (_ & _ & Hdown & _).
  specialize (Hdown eq_refl (or_introl (ex_intro _ "Failed to fetch" eq_refl))).
  destruct (Client.initialize Client.offline_browser Client.create) as [t s'].
  destruct Hdown as (_ & Hurl & _ & _ & Hav).
  split; [apply Hav; reflexivity | exact Hurl].
Defined.

(** * The hash of [AIService] *)

Lemma toInt32_range z : - 2 ^ 31 <= toInt32 z < 2 ^ 31.
Proof.
  unfold toInt32.
  pose proof (Z.mod_pos_bound (z + 2147483648) 4294967296 ltac:(lia)). lia.
Qed.

Lemma toInt32_fixed z : - 2 ^ 31 <= z < 2 ^ 31 -> toInt32 z = z.
Proof.
  intros H. unfold toInt32. rewrite Z.mod_small by lia. lia.
Qed.

Lemma toInt32_quotient z : exists q, toInt32 z = z - 2 ^ 32 * q.
Proof.
  exists ((z + 2147483648) / 4294967296). unfold toInt32.
  rewrite Z.mod_eq by lia. lia.
Qed.

Lemma toInt32_periodic z k : toInt32 (z + 2 ^ 32 * k) = toInt32 z.
Proof.
  unfold toInt32.
  replace (z + 2 ^ 32 * k + 2147483648) with (z + 2147483648 + k * 4294967296) by lia.
  now rewrite Z.mod_add by lia.
Qed.

Lemma hash_step_horner p c :
  hash_step (toInt32 p) c = toInt32 (31 * p + Z.of_nat (nat_of_ascii c)).
Proof.
  unfold hash_step. cbv zeta. rewrite Z.land_diag, Z.shiftl_mul_pow2 by lia.
  rewrite (toInt32_fixed (toInt32 _)) by apply toInt32_range.
  rewrite (toInt32_fixed (toInt32 p)) by apply toInt32_range.
  destruct (toInt32_quotient p) as [q1 E1].
  destruct (toInt32_quotient (toInt32 p * 2 ^ 5)) as [q2 E2].
  rewrite E2, E1.
  replace ((p - 2 ^ 32 * q1) * 2 ^ 5 - 2 ^ 32 * q2 - (p - 2 ^ 32 * q1)
           + Z.of_nat (nat_of_ascii c))
    with (31 * p + Z.of_nat (nat_of_ascii c) + 2 ^ 32 * (- 31 * q1 - q2)) by lia.
  apply toInt32_periodic.
Qed.

Lemma hash_loop_horner str :
  forall p, hash_loop str (toInt32 p) = toInt32 (horner str p).
Proof.
  induction str as [|c str IH]; intros p; [reflexivity|].
  cbn [hash_loop horner]. rewrite hash_step_horner. apply IH.
Qed.

(** X18.  The number whose decimal form [hashCode] returns is a signed
    32-bit integer, congruent modulo 2^32 to the polynomial in 31 whose
    coefficients are the code units of the string.  Hence two codes whose
    polynomials are congruent modulo 2^32 get the same cache key in
    [analyzeCode] for the same language. *)
Theorem hashCode_is_the_polynomial_hash :
  forall str : string,
    hash_loop str 0 = toInt32 (horner str 0) /\
    - 2 ^ 31 <= hash_loop str 0 < 2 ^ 31 /\
    (hash_loop str 0 - horner str 0) mod 2 ^ 32 = 0 /\
    forall language other,
      (horner other 0 - horner str 0) mod 2 ^ 32 = 0 ->
      cacheKey language other = cacheKey language str.
Proof.
  intros str.
  assert (H0 : forall s, hash_loop s 0 = toInt32 (horner s 0)).
  { intros s. rewrite <- hash_loop_horner. reflexivity. }
  split; [apply H0|]. split; [rewrite H0; apply toInt32_range|]. split.
  - rewrite H0. destruct (toInt32_quotient (horner str 0)) as [q E]. rewrite E.
    replace (horner str 0 - 2 ^ 32 * q - horner str 0) with ((- q) * 2 ^ 32) by lia.
    apply Z.mod_mul. lia.
  - intros language other Hcong. unfold cacheKey, hashCode. rewrite !H0.
    apply Z.mod_divide in Hcong; [|lia]. destruct Hcong as [k Hk].
    replace (horner other 0) with (horner str 0 + 2 ^ 32 * k) by lia.
    now rewrite toInt32_periodic.
Qed.

Lemma hashCode_is_the_polynomial_hash_witness :
  hashCode "Aa" = "2112" /\ cacheKey "javascript" "BB" = cacheKey "javascript" "Aa".
Proof.
  split; [reflexivity|].
  apply (hashCode_is_the_polynomial_hash "Aa"). reflexivity.
Defined.
